(** * A shallow embedding of the SaaS-companies scraper

    The development follows the five source files of the scraper:
    [data_extractor.py], [browser_utils.py], [base_scraper.py],
    [saas_scraper.py] and [main.py].

    - Python [str] values are modelled as [string] (ASCII text); [int] as [Z];
      [float] as the IEEE-754 binary64 numbers of [SpecFloat].  The number
      parsers [int()] and [float()] are modelled on every text of code points
      below 256.
    - A [dict] is an association list in insertion order, as Python keeps it.
    - Everything outside the program (browser, network, file system, console)
      is an abstract world reached through the operations of the class
      [World]; a run threads the world and a trace of the externally visible
      calls, and either returns a value or raises an exception.
    - Diagnostic [print]/logging calls of the scraper modules carry no data
      and are left out; the console output of [main.py] is modelled. *)

From Stdlib Require Import ZArith List String Ascii Bool Lia SpecFloat.
From Stdlib Require Import DecimalString DecimalPos DecimalZ.
From Stdlib Require Import Permutation.
Import ListNotations.

Local Open Scope string_scope.
Local Open Scope Z_scope.

(** ** Python values and built-ins *)

Module Py.

(** Exceptions (instances of [Exception]) that the program can meet. *)
Inductive exn : Type :=
| ValueError
| TypeError
| OverflowError
| IndexError
| EOFError
| OSError
| TimeoutException
| WebDriverException
| RequestException
| HTTPError.

Definition exn_eqb (a b : exn) : bool :=
  match a, b with
  | ValueError, ValueError | TypeError, TypeError
  | OverflowError, OverflowError | IndexError, IndexError
  | EOFError, EOFError | OSError, OSError
  | TimeoutException, TimeoutException
  | WebDriverException, WebDriverException
  | RequestException, RequestException | HTTPError, HTTPError => true
  | _, _ => false
  end.

(** Result of a pure computation that may raise. *)
Inductive exc (A : Type) : Type :=
| Val (a : A)
| Exn (e : exn).
Arguments Val {A} a.
Arguments Exn {A} e.

Definition exc_bind {A B} (m : exc A) (k : A -> exc B) : exc B :=
  match m with
  | Val a => k a
  | Exn e => Exn e
  end.

(** [try: m except (e1, e2, ...): h] *)
Definition exc_catch {A} (m : exc A) (caught : exn -> bool) (h : exn -> exc A)
  : exc A :=
  match m with
  | Val a => Val a
  | Exn e => if caught e then h e else Exn e
  end.

(** *** Characters *)

Definition code (c : ascii) : nat := nat_of_ascii c.

Definition is_space (c : ascii) : bool :=
  let n := code c in
  ((9 <=? n) && (n <=? 13) || (28 <=? n) && (n <=? 32))%nat.

(** White space as [int()] and [float()] skip it around an ASCII literal:
    the [isspace] of the C locale. *)
Definition is_c_space (c : ascii) : bool :=
  let n := code c in ((9 <=? n) && (n <=? 13) || (n =? 32))%nat.

Definition is_digit (c : ascii) : bool :=
  let n := code c in ((48 <=? n) && (n <=? 57))%nat.

Definition digit_val (c : ascii) : Z := Z.of_nat (code c) - 48.

Definition lower_char (c : ascii) : ascii :=
  let n := code c in
  if ((65 <=? n) && (n <=? 90))%nat then ascii_of_nat (n + 32) else c.

Definition upper_char (c : ascii) : ascii :=
  let n := code c in
  if ((97 <=? n) && (n <=? 122))%nat then ascii_of_nat (n - 32) else c.

(** *** [str] methods *)

Fixpoint smap (f : ascii -> ascii) (s : string) : string :=
  match s with
  | EmptyString => EmptyString
  | String c s' => String (f c) (smap f s')
  end.

(** [s.lower()], [s.upper()] *)
Definition lower (s : string) : string := smap lower_char s.
Definition upper (s : string) : string := smap upper_char s.

(** [len(s)] *)
Definition len (s : string) : Z := Z.of_nat (String.length s).

Fixpoint lstrip (s : string) : string :=
  match s with
  | EmptyString => EmptyString
  | String c s' => if is_space c then lstrip s' else s
  end.

Fixpoint rstrip (s : string) : string :=
  match s with
  | EmptyString => EmptyString
  | String c s' =>
      match rstrip s' with
      | EmptyString => if is_space c then EmptyString else String c EmptyString
      | r => String c r
      end
  end.

(** [s.strip()] *)
Definition strip (s : string) : string := rstrip (lstrip s).

(** [s.startswith(p)] *)
Fixpoint startswith (s p : string) : bool :=
  match p, s with
  | EmptyString, _ => true
  | String _ _, EmptyString => false
  | String a p', String b s' => Ascii.eqb a b && startswith s' p'
  end.

(** [sub in s] *)
Fixpoint contains (sub s : string) : bool :=
  startswith s sub ||
  match s with
  | EmptyString => false
  | String _ s' => contains sub s'
  end.

Fixpoint drop (n : nat) (s : string) : string :=
  match n, s with
  | O, _ => s
  | S _, EmptyString => EmptyString
  | S k, String _ s' => drop k s'
  end.

(** [s.replace(old, new)] for a non-empty [old]: [skip] counts the characters
    of a matched occurrence that are still to be passed over. *)
Fixpoint replace_from (old new s : string) (skip : nat) : string :=
  match s with
  | EmptyString => EmptyString
  | String c s' =>
      match skip with
      | S k => replace_from old new s' k
      | O =>
          if startswith s old
          then new ++ replace_from old new s' (String.length old - 1)
          else String c (replace_from old new s' 0)
      end
  end.

Definition replace (s old new : string) : string := replace_from old new s 0.

(** Truthiness of a string: [if s:] *)
Definition truthy (s : string) : bool :=
  match s with EmptyString => false | _ => true end.

(** [str(n)] for an integer *)
Definition str_of_int (n : Z) : string := NilZero.string_of_int (Z.to_int n).

(** *** Numeric literals: [int(s)] and [float(s)] *)

(** A digit part [digit (["_"] digit)*]: the digits read and the rest. *)
Fixpoint digits_tail (s : string) (acc : list Z) : list Z * string :=
  match s with
  | String c s' =>
      if is_digit c then digits_tail s' (digit_val c :: acc)
      else if Ascii.eqb c "_"
      then match s' with
           | String d s'' =>
               if is_digit d then digits_tail s'' (digit_val d :: acc)
               else (rev acc, s)
           | EmptyString => (rev acc, s)
           end
      else (rev acc, s)
  | EmptyString => (rev acc, s)
  end.

Definition digitpart (s : string) : option (list Z * string) :=
  match s with
  | String c s' =>
      if is_digit c then Some (digits_tail s' [digit_val c]) else None
  | EmptyString => None
  end.

Definition digits_value (ds : list Z) : Z :=
  fold_left (fun a d => 10 * a + d) ds 0.

(** What [int()] and [float()] make of a text before they read it: an ASCII
    text is taken as it is; in any other text a character from 127 on is
    replaced, a space (NEL and the no-break space) by a blank and anything
    else by a question mark, which no literal contains. *)
Fixpoint is_ascii (s : string) : bool :=
  match s with
  | EmptyString => true
  | String c s' => (code c <? 128)%nat && is_ascii s'
  end.

Definition to_ascii_char (c : ascii) : ascii :=
  let n := code c in
  if (n <? 127)%nat then c
  else if ((n =? 133) || (n =? 160))%nat then " "%char
  else "?"%char.

Definition number_text (s : string) : string :=
  if is_ascii s then s else smap to_ascii_char s.

Fixpoint number_lstrip (s : string) : string :=
  match s with
  | EmptyString => EmptyString
  | String c s' => if is_c_space c then number_lstrip s' else s
  end.

Fixpoint number_rstrip (s : string) : string :=
  match s with
  | EmptyString => EmptyString
  | String c s' =>
      match number_rstrip s' with
      | EmptyString => if is_c_space c then EmptyString else String c EmptyString
      | r => String c r
      end
  end.

(** The literal inside the white space that the parsers skip. *)
Definition number_strip (s : string) : string :=
  number_rstrip (number_lstrip (number_text s)).

(** [sys.get_int_max_str_digits()]: the most digits [int()] reads. *)
Definition int_max_str_digits : nat := 4300.

(** An optional sign: [true] for "-". *)
Definition sign (s : string) : bool * string :=
  match s with
  | String c s' =>
      if Ascii.eqb c "-" then (true, s')
      else if Ascii.eqb c "+" then (false, s')
      else (false, s)
  | EmptyString => (false, s)
  end.

(** [int(s)] in base ten: surrounding white space, an optional sign, one
    digit part of at most [int_max_str_digits] digits. *)
Definition int_of_str (s : string) : exc Z :=
  let (neg, body) := sign (number_strip s) in
  match digitpart body with
  | Some (ds, EmptyString) =>
      if (int_max_str_digits <? List.length ds)%nat then Exn ValueError
      else Val (if neg then - digits_value ds else digits_value ds)
  | _ => Exn ValueError
  end.

(** binary64 *)
Definition float := spec_float.
Definition prec := 53.
Definition emax := 1024.

Definition float_of_Z (n : Z) : float := binary_normalize prec emax n 0 false.

Definition fmul (x y : float) : float := SFmul prec emax x y.

(** The binary64 number nearest to [m * 10^e] (ties to even), for [m >= 0]:
    a quotient with at least 55 significant bits and a sticky last bit is
    rounded once. *)
Definition float_of_decimal (neg : bool) (m e : Z) : float :=
  let sgn z := if neg then - z else z in
  if m =? 0 then S754_zero neg
  else if 0 <=? e then binary_normalize prec emax (sgn (m * 10 ^ e)) 0 neg
  else
    let q := 10 ^ (- e) in
    let s := Z.max 0 (55 + Z.log2_up q - Z.log2 m) in
    let n := m * 2 ^ s in
    let sticky := if n mod q =? 0 then 0 else 1 in
    binary_normalize prec emax (sgn (2 * (n / q) + sticky)) (- (s + 1)) neg.

(** The exponent part of a float literal: [("e" | "E") [sign] digitpart]. *)
Definition exponent (s : string) : option (Z * string) :=
  match s with
  | String c s' =>
      if Ascii.eqb c "e" || Ascii.eqb c "E" then
        let (neg, body) := sign s' in
        match digitpart body with
        | Some (ds, rest) =>
            Some (if neg then - digits_value ds else digits_value ds, rest)
        | None => None
        end
      else None
  | EmptyString => Some (0, s)
  end.

(** The mantissa of a float literal: [[digitpart] "." digitpart] or
    [digitpart ["."]]; the digits before and after the point. *)
Definition mantissa (s : string) : option (list Z * list Z * string) :=
  match digitpart s with
  | Some (ip, String "." rest) =>
      match digitpart rest with
      | Some (fp, rest') => Some (ip, fp, rest')
      | None => Some (ip, [], rest)
      end
  | Some (ip, rest) => Some (ip, [], rest)
  | None =>
      match s with
      | String "." rest =>
          match digitpart rest with
          | Some (fp, rest') => Some ([], fp, rest')
          | None => None
          end
      | _ => None
      end
  end.

(** [float(s)] *)
Definition float_of_str (s : string) : exc float :=
  let (neg, body) := sign (number_strip s) in
  let low := lower body in
  if String.eqb low "inf" || String.eqb low "infinity" then Val (S754_infinity neg)
  else if String.eqb low "nan" then Val S754_nan
  else
    match mantissa body with
    | Some (ip, fp, rest) =>
        match exponent rest with
        | Some (e, EmptyString) =>
            Val (float_of_decimal neg (digits_value (ip ++ fp))
                                  (e - Z.of_nat (List.length fp)))
        | _ => Exn ValueError
        end
    | None => Exn ValueError
    end.

(** [int(x)] for a float: truncation towards zero. *)
Definition int_of_float (x : float) : exc Z :=
  match x with
  | S754_zero _ => Val 0
  | S754_infinity _ => Exn OverflowError
  | S754_nan => Exn ValueError
  | S754_finite s m e =>
      let mag := if 0 <=? e then Z.shiftl (Zpos m) e
                 else Z.shiftr (Zpos m) (- e) in
      Val (if s then - mag else mag)
  end.

End Py.

(** ** Records: Python dictionaries in insertion order *)

Module Dict.

Inductive value : Type :=
| VNone
| VStr (s : string)
| VInt (n : Z).

Definition dict := list (string * value).

(** [d.get(k)]: [None] when the key is absent. *)
Fixpoint lookup (k : string) (d : dict) : option value :=
  match d with
  | [] => None
  | (k', v) :: d' => if String.eqb k k' then Some v else lookup k d'
  end.

(** [d[k] = v]: an existing key keeps its place, a new one goes last. *)
Fixpoint set (k : string) (v : value) (d : dict) : dict :=
  match d with
  | [] => [(k, v)]
  | (k', v') :: d' =>
      if String.eqb k k' then (k', v) :: d' else (k', v') :: set k v d'
  end.

(** [{**a, **b}] *)
Definition merge (a b : dict) : dict :=
  fold_left (fun d kv => set (fst kv) (snd kv) d) b a.

Definition of_option (o : option string) : value :=
  match o with
  | Some s => VStr s
  | None => VNone
  end.

(** Truthiness of [d.get(k)] / [d[k]]. *)
Definition is_true (o : option value) : bool :=
  match o with
  | Some (VStr s) => Py.truthy s
  | Some (VInt n) => negb (n =? 0)
  | Some VNone | None => false
  end.

Definition get_str (k : string) (d : dict) : option string :=
  match lookup k d with
  | Some (VStr s) => Some s
  | _ => None
  end.

End Dict.

(** ** Parsed markup, as BeautifulSoup presents it *)

Module Soup.
Import Py.

#[warnings="-register-all"]
Inductive node : Type :=
| Tag (name : string) (attrs : list (string * string)) (contents : list node)
| NavigableString (text : string).

(** [tag.descendants]: every node below [n], in document order. *)
Fixpoint descendants (n : node) : list node :=
  match n with
  | NavigableString _ => []
  | Tag _ _ cs =>
      (fix below (l : list node) : list node :=
         match l with
         | [] => []
         | c :: l' => c :: descendants c ++ below l'
         end) cs
  end.

(** [tag.get(attr)] *)
Definition get (n : node) (attr : string) : option string :=
  match n with
  | Tag _ attrs _ =>
      match find (fun kv => String.eqb (fst kv) attr) attrs with
      | Some kv => Some (snd kv)
      | None => None
      end
  | NavigableString _ => None
  end.

(** White-space separated words of an attribute value. *)
Fixpoint words_from (s : string) (cur : string) : list string :=
  let flush := match cur with EmptyString => [] | _ => [cur] end in
  match s with
  | EmptyString => flush
  | String c s' =>
      if is_space c then flush ++ words_from s' EmptyString
      else words_from s' (cur ++ String c EmptyString)
  end.

Definition words (s : string) : list string := words_from s EmptyString.

(** The [class_=c] filter: one of the classes is [c], or the classes joined
    by single spaces are [c]. *)
Definition has_class (c : string) (n : node) : bool :=
  match get n "class" with
  | Some v =>
      let cs := words v in
      existsb (String.eqb c) cs || String.eqb (String.concat " " cs) c
  | None => false
  end.

Definition is_tag (name : string) (n : node) : bool :=
  match n with
  | Tag t _ _ => String.eqb t name
  | NavigableString _ => false
  end.

(** [n.find_all(name)], [n.find_all(name, class_=c)] *)
Definition find_all (n : node) (name : string) : list node :=
  filter (is_tag name) (descendants n).

Definition find_all_class (n : node) (name c : string) : list node :=
  filter (fun d => is_tag name d && has_class c d) (descendants n).

(** [n.find(name)], [n.find(name, class_=c)], [n.find(name, id=i)] and
    [n.find(name, href=pattern)] *)
Definition find_tag (n : node) (name : string) : option node :=
  hd_error (find_all n name).

Definition find_class (n : node) (name c : string) : option node :=
  hd_error (find_all_class n name c).

Definition find_id (n : node) (name i : string) : option node :=
  List.find (fun d => is_tag name d &&
                      match get d "id" with
                      | Some v => String.eqb v i
                      | None => false
                      end) (descendants n).

Definition find_href (n : node) (name : string) (pattern : string -> bool)
  : option node :=
  List.find (fun d => is_tag name d &&
                      match get d "href" with
                      | Some v => pattern v
                      | None => false
                      end) (descendants n).

(** [n.get_text(strip=True)]: the stripped, non-empty strings below [n],
    joined without a separator. *)
Definition get_text_strip (n : node) : string :=
  fold_right
    (fun d acc =>
       match d with
       | NavigableString t =>
           match strip t with
           | EmptyString => acc
           | t' => t' ++ acc
           end
       | Tag _ _ _ => acc
       end) EmptyString (descendants n).

(** [re.compile(r'linkedin\.com').search(s)] *)
Definition re_linkedin (s : string) : bool := contains "linkedin.com" s.

(** [re.compile(r'//[^/]+').search(s)]: two slashes and a character that is
    not a slash. *)
Fixpoint re_slashes (s : string) : bool :=
  match s with
  | String "/" (String "/" (String c _) as s') =>
      negb (Ascii.eqb c "/") || re_slashes s'
  | String _ s' => re_slashes s'
  | EmptyString => false
  end.

(** Library functions the extractor and the scraper call: [urljoin] of
    [urllib.parse], the selector engine behind [soup.select_one] and the
    parser behind [BeautifulSoup(content, 'html.parser')]. *)
Class Library : Type := {
  urljoin : string -> string -> string;
  select_one : node -> string -> option node;
  html_parser : string -> node
}.

End Soup.

(** ** data_extractor.py *)

Module DataExtractor.
Import Py Dict Soup.

(** [convert_employee_count(count_str)] *)
Definition convert_employee_count (count_str : string) : exc (option Z) :=
  exc_catch
    (let count_str := upper (strip count_str) in
     if contains "K" count_str then
       exc_bind (float_of_str (replace count_str "K" "")) (fun number =>
       exc_bind (int_of_float (fmul number (float_of_Z 1000))) (fun n =>
       Val (Some n)))
     else if contains "M" count_str then
       exc_bind (float_of_str (replace count_str "M" "")) (fun number =>
       exc_bind (int_of_float (fmul number (float_of_Z 1000000))) (fun n =>
       Val (Some n)))
     else
       exc_bind (int_of_str count_str) (fun n => Val (Some n)))
    (fun e => exn_eqb e ValueError || exn_eqb e TypeError)
    (fun _ => Val None).

(** The record every row starts from: ten fields, all [None]. *)
Definition empty_company_data : dict :=
  [ ("Company Name", VNone); ("Company Linkedin Url", VNone);
    ("Company Hyperlink", VNone); ("Company Website URL", VNone);
    ("Revenue", VNone); ("Funding", VNone); ("Growth", VNone);
    ("Founder Name", VNone); ("Location", VNone); ("Industry", VNone) ].

Definition cell_class := "data-table_cell__a_9gs".

(** [cells[i]] once the length test has passed. *)
Definition cell (cells : list node) (i : nat) : node :=
  nth i cells (NavigableString EmptyString).

(** A cell whose text is taken unless it holds a lock button. *)
Definition unlocked_text (key : string) (c : node) (d : dict) : dict :=
  match find_class c "button" "btn_lock" with
  | Some _ => d
  | None =>
      let text := get_text_strip c in
      if truthy text then set key (VStr text) d else d
  end.

(** A cell whose text is that of a link inside it. *)
Definition link_text (key : string) (link : option node) (d : dict) : dict :=
  match link with
  | Some l =>
      let text := get_text_strip l in
      if truthy text then set key (VStr text) d else d
  | None => d
  end.

Section Extract.
Context {lib : Library}.

(** Cell 1: the company name and its links. *)
Definition name_cell_data (name_cell : node) (d : dict) : dict :=
  let d :=
    match find_class name_cell "a" "cells_link__PfQot" with
    | Some name_link =>
        let d := set "Company Name" (VStr (get_text_strip name_link)) d in
        match get name_link "href" with
        | Some href =>
            if truthy href then
              if startswith href "/"
              then set "Company Hyperlink"
                       (VStr (urljoin "https://getlatka.com" href)) d
              else set "Company Hyperlink" (VStr href) d
            else d
        | None => d
        end
    | None => d
    end in
  let d :=
    match find_href name_cell "a" re_linkedin with
    | Some linkedin_link =>
        set "Company Linkedin Url" (of_option (get linkedin_link "href")) d
    | None => d
    end in
  match find_href name_cell "a" re_slashes with
  | Some website_link =>
      match get website_link "href" with
      | Some href =>
          if truthy href && startswith href "//"
          then set "Company Website URL" (VStr ("https:" ++ href)) d
          else d
      | None => d
      end
  | None => d
  end.

(** [extract_company_data_from_card(card_element)] *)
Definition extract_company_data_from_card (card_element : node) : dict :=
  let company_data := empty_company_data in
  let cells := find_all_class card_element "td" cell_class in
  let n := Z.of_nat (List.length cells) in
  if n <? 14 then company_data
  else
    let company_data :=
      if n >? 1 then name_cell_data (cell cells 1) company_data
      else company_data in
    let company_data :=
      if n >? 2 then unlocked_text "Revenue" (cell cells 2) company_data
      else company_data in
    let company_data :=
      if n >? 6 then unlocked_text "Funding" (cell cells 6) company_data
      else company_data in
    let company_data :=
      if n >? 8 then unlocked_text "Growth" (cell cells 8) company_data
      else company_data in
    let company_data :=
      if n >? 9
      then link_text "Founder Name"
             (find_class (cell cells 9) "a" "cells_name__pBrsJ") company_data
      else company_data in
    let company_data :=
      if n >? 13
      then link_text "Location" (find_tag (cell cells 13) "a") company_data
      else company_data in
    if n >? 14
    then link_text "Industry"
           (find_class (cell cells 14) "a" "saas-companies_ellipses__Y9AeV")
           company_data
    else company_data.

(** The record a profile starts from. *)
Definition empty_profile_data : dict :=
  [ ("employee_count", VNone); ("ceo_name", VNone); ("founded_year", VNone);
    ("pricing_info", VNone); ("top_products", VNone); ("description", VNone) ].

(** One indicator of the details section. *)
Definition indicator_data (indicator : node) (d : dict) : dict :=
  match find_class indicator "div" "indicators-text" with
  | None => d
  | Some text_block =>
      match find_class text_block "h4" "h4",
            find_class text_block "p" "p-indicators" with
      | Some value_elem, Some label_elem =>
          let value := get_text_strip value_elem in
          let label := lower (get_text_strip label_elem) in
          if contains "founded" label then set "founded_year" (VStr value) d
          else if contains "revenue" label then set "Revenue" (VStr value) d
          else if contains "yoy" label then set "Growth" (VStr value) d
          else if contains "funding" label then set "Funding" (VStr value) d
          else d
      | _, _ => d
      end
  end.

Definition team_size_selector :=
  "section#team table tr:has(td.table__td_bullet:contains(" ++
  String (ascii_of_nat 34) ("Total team size" ++
  String (ascii_of_nat 34) ")) td:nth-child(2)").

(** [extract_company_profile(soup)]: an exception of the employee-count
    conversion is caught by the function's handler, which returns the
    record as it stands. *)
Definition extract_company_profile (soup : node) : dict :=
  let profile_data := empty_profile_data in
  let profile_data :=
    match find_class soup "p" "p-text p-text_details" with
    | Some description_elem =>
        set "description" (VStr (get_text_strip description_elem))
            profile_data
    | None => profile_data
    end in
  let profile_data :=
    match find_id soup "section" "details" with
    | Some details_section =>
        match find_class details_section "div" "indicators" with
        | Some indicators_container =>
            fold_left (fun d indicator => indicator_data indicator d)
              (find_all_class indicators_container "div" "indicators__i")
              profile_data
        | None => profile_data
        end
    | None => profile_data
    end in
  match select_one soup team_size_selector with
  | Some team_section =>
      match convert_employee_count (get_text_strip team_section) with
      | Val (Some n) => set "employee_count" (VInt n) profile_data
      | Val None => set "employee_count" VNone profile_data
      | Exn _ => profile_data
      end
  | None => profile_data
  end.

End Extract.

End DataExtractor.

(** ** The world outside the program *)

Module Effects.
Import Py Dict Soup.

(** Selenium locators, the scripts the program injects, and the sleeps it
    takes ([Uniform a b] stands for [random.uniform(a/10, b/10)] seconds,
    with bounds that are not negative). *)
Inductive locator : Type :=
| ByClassName (name : string)
| ByCssSelector (selector : string)
| ByTagName (name : string).

Inductive script (elem : Type) : Type :=
| MouseOver (x y : Z)
| ScrollBy (dy : Z)
| ScrollIntoView (e : elem)
| ScriptClick (e : elem).
Arguments MouseOver {elem} x y.
Arguments ScrollBy {elem} dy.
Arguments ScrollIntoView {elem} e.
Arguments ScriptClick {elem} e.

Inductive duration : Type :=
| Seconds (n : Z)
| Uniform (lo hi : N).

(** An external call either returns or raises, and moves the world on. *)
Inductive res (S A : Type) : Type :=
| Ok (a : A) (s : S)
| Raise (e : exn) (s : S).
Arguments Ok {S A} a s.
Arguments Raise {S A} e s.

(** The operations of the browser driver, the HTTP session, the file system,
    the console, the random generator and the clock.  A WebElement
    attribute that is missing counts as a raise of the reading.
    [polls t w] is the number of times a loop guarded by
    [time.time() - start_time < t] gets through its guard when it is
    entered in world [w]; [completion_order n w] is the order in which the
    [n] futures of a worker pool complete. *)
Class World (W elem response : Type) : Type := {
  chrome_start : W -> res W unit;
  driver_set_window : W -> res W unit;
  driver_get : string -> W -> res W unit;
  driver_page_source : W -> res W string;
  driver_find_elements : locator -> W -> res W (list elem);
  driver_find_element : locator -> W -> res W elem;
  driver_execute_script : script elem -> W -> res W unit;
  driver_quit : W -> res W unit;
  element_find_element : elem -> locator -> W -> res W elem;
  element_text : elem -> W -> res W string;
  element_get_attribute : elem -> string -> W -> res W string;
  element_is_displayed : elem -> W -> res W bool;
  element_click : elem -> W -> res W unit;
  actions_move_to_element : elem -> W -> res W unit;
  actions_send_escape : W -> res W unit;
  wait_presence_all : Z -> locator -> W -> res W (list elem);
  wait_presence : Z -> locator -> W -> res W elem;
  wait_clickable : Z -> locator -> W -> res W elem;
  session_get : string -> Z -> W -> res W response;
  raise_for_status : response -> exc unit;
  response_text : response -> string;
  write_json : string -> list dict -> W -> res W unit;
  makedirs : string -> W -> res W unit;
  path_join : string -> string -> string;
  console_input : W -> res W string;
  sleep : duration -> W -> W;
  randint : Z -> Z -> W -> Z * W;
  choice : nat -> W -> nat * W;
  completion_order : nat -> W -> list nat;
  polls : Z -> W -> nat
}.

(** Externally visible calls, oldest first. *)
Inductive event : Type :=
| DriverGet (url : string)
| HttpGet (url : string) (timeout : Z)
| WriteJson (path : string) (data : list dict)
| Print (text : string).

(** The URL of a page fetch, if the event is one. *)
Definition fetched (ev : event) : option string :=
  match ev with
  | DriverGet url | HttpGet url _ => Some url
  | WriteJson _ _ | Print _ => None
  end.

Fixpoint fetches (evs : list event) : list string :=
  match evs with
  | [] => []
  | ev :: evs' =>
      match fetched ev with
      | Some url => url :: fetches evs'
      | None => fetches evs'
      end
  end.

(** [self.config] *)
Record config : Type := {
  base_url : string;
  pages_to_scrape : Z;
  delay_between_requests : Z;
  timeout : Z;
  output_dir : string;
  use_selenium : bool;
  headless : bool;
  max_workers : Z;
  chunk_size : Z
}.

Definition with_use_selenium (b : bool) (c : config) : config :=
  {| base_url := base_url c; pages_to_scrape := pages_to_scrape c;
     delay_between_requests := delay_between_requests c;
     timeout := timeout c; output_dir := output_dir c;
     use_selenium := b; headless := headless c;
     max_workers := max_workers c; chunk_size := chunk_size c |}.

Section Monad.
Context {W elem response : Type} {ops : World W elem response}.

(** The scraper object ([self.config], whether [self.driver] is set), the
    world and the trace. *)
Record state : Type := {
  self_config : config;
  self_driver : bool;
  world : W;
  trace : list event
}.

Definition M (A : Type) : Type := state -> res state A.

Definition ret {A} (a : A) : M A := fun st => Ok a st.

Definition bind {A B} (m : M A) (k : A -> M B) : M B :=
  fun st =>
    match m st with
    | Ok a st' => k a st'
    | Raise e st' => Raise e st'
    end.

Definition raise {A} (e : exn) : M A := fun st => Raise e st.

(** [try: m except Exception: h] *)
Definition try_except {A} (m : M A) (h : exn -> M A) : M A :=
  fun st =>
    match m st with
    | Ok a st' => Ok a st'
    | Raise e st' => h e st'
    end.

(** [try: m except cls: h] *)
Definition try_except_only {A} (cls : exn) (m : M A) (h : M A) : M A :=
  fun st =>
    match m st with
    | Ok a st' => Ok a st'
    | Raise e st' => if exn_eqb e cls then h st' else Raise e st'
    end.

(** [try: m finally: f] *)
Definition try_finally {A} (m : M A) (f : M unit) : M A :=
  fun st =>
    match m st with
    | Ok a st' =>
        match f st' with
        | Ok _ st'' => Ok a st''
        | Raise e st'' => Raise e st''
        end
    | Raise e st' =>
        match f st' with
        | Ok _ st'' => Raise e st''
        | Raise e' st'' => Raise e' st''
        end
    end.

(** A pure computation that may raise. *)
Definition of_exc {A} (m : exc A) : M A :=
  fun st =>
    match m with
    | Val a => Ok a st
    | Exn e => Raise e st
    end.

Definition get_config : M config := fun st => Ok (self_config st) st.

Definition set_driver (b : bool) : M unit :=
  fun st => Ok tt {| self_config := self_config st; self_driver := b;
                     world := world st; trace := trace st |}.

Definition set_use_selenium (b : bool) : M unit :=
  fun st => Ok tt {| self_config := with_use_selenium b (self_config st);
                     self_driver := self_driver st;
                     world := world st; trace := trace st |}.

(** [self.config['use_selenium'] and self.driver] *)
Definition browser_enabled : M bool :=
  fun st => Ok (use_selenium (self_config st) && self_driver st) st.

(** An external call: its events are recorded whether it returns or
    raises. *)
Definition call {A} (evs : list event) (op : W -> res W A) : M A :=
  fun st =>
    let st' w := {| self_config := self_config st;
                    self_driver := self_driver st;
                    world := w; trace := trace st ++ evs |} in
    match op (world st) with
    | Ok a w => Ok a (st' w)
    | Raise e w => Raise e (st' w)
    end.

Definition total {A} (op : W -> A * W) : W -> res W A :=
  fun w => let (a, w') := op w in Ok a w'.

Definition observe {A} (f : W -> A) : M A := fun st => Ok (f (world st)) st.

(** A sleep of negative length. *)
Definition negative (d : duration) : bool :=
  match d with
  | Seconds n => n <? 0
  | Uniform _ _ => false
  end.

(** [time.sleep(d)]: a negative length raises [ValueError]. *)
Definition time_sleep (d : duration) : M unit :=
  if negative d then raise ValueError
  else call [] (fun w => Ok tt (sleep d w)).

Definition print (text : string) : M unit :=
  call [Print text] (fun w => Ok tt w).

End Monad.

Arguments state W : clear implicits.
Arguments M W A : clear implicits.

Declare Scope py_scope.
Delimit Scope py_scope with py.
Notation "x <- m ;; k" := (bind m (fun x => k))
  (at level 61, m at next level, right associativity) : py_scope.
Notation "m ;; k" := (bind m (fun _ => k))
  (at level 61, right associativity) : py_scope.

(** [range(start, stop, step)] for a positive step, [fuel] bounding the
    number of elements. *)
Fixpoint range_up (fuel : nat) (i stop step : Z) : list Z :=
  match fuel with
  | O => []
  | S f => if i <? stop then i :: range_up f (i + step) stop step else []
  end.

Fixpoint range_down (fuel : nat) (i stop step : Z) : list Z :=
  match fuel with
  | O => []
  | S f => if i >? stop then i :: range_down f (i + step) stop step else []
  end.

Definition range3 (start stop step : Z) : exc (list Z) :=
  if step =? 0 then Exn ValueError
  else if step >? 0
       then Val (range_up (Z.to_nat (stop - start)) start stop step)
       else Val (range_down (Z.to_nat (start - stop)) start stop step).

(** [range(start, stop)] *)
Definition range (start stop : Z) : list Z :=
  range_up (Z.to_nat (stop - start)) start stop 1.

(** [l[i:j]] *)
Definition slice {A} (l : list A) (i j : Z) : list A :=
  let n := Z.of_nat (List.length l) in
  let clamp k := if k <? 0 then Z.max (k + n) 0 else Z.min k n in
  let lo := clamp i in
  let hi := clamp j in
  firstn (Z.to_nat (hi - lo)) (skipn (Z.to_nat lo) l).

(** [len(l)], [bool(l)] *)
Definition llen {A} (l : list A) : Z := Z.of_nat (List.length l).

Definition nonempty {A} (l : list A) : bool :=
  match l with [] => false | _ => true end.

End Effects.

(** ** browser_utils.py *)

Module BrowserUtils.
Import Py Dict Soup Effects.
Local Open Scope py_scope.

Definition row_class := "data-table_row__aX_dq".

Definition modal_selectors : list string :=
  [ "button[aria-label='Close']"; ".modal-close"; ".popup-close";
    ".overlay-close"; "[data-dismiss='modal']"; ".btn-close" ].

Definition blocking_indicators : list string :=
  [ "blocked"; "captcha"; "cloudflare"; "access denied";
    "please wait"; "checking your browser"; "ddos protection" ].

Section WithWorld.
Context {W elem response : Type} {ops : World W elem response}.

(** [for _ in range(n): m] *)
Fixpoint times (n : nat) (m : M W unit) : M W unit :=
  match n with
  | O => ret tt
  | S k => m ;; times k m
  end.

(** [simulate_real_browser_behavior(driver)] *)
Definition simulate_real_browser_behavior : M W unit :=
  try_except
    (k <- call [] (total (randint 2 5)) ;;
     times (Z.to_nat k)
       (x <- call [] (total (randint 100 800)) ;;
        y <- call [] (total (randint 100 600)) ;;
        call [] (driver_execute_script (MouseOver x y)) ;;
        time_sleep (Uniform 1 3)) ;;
     scroll_amount <- call [] (total (randint 100 300)) ;;
     call [] (driver_execute_script (ScrollBy scroll_amount)) ;;
     time_sleep (Uniform 5 10) ;;
     elements <- call [] (driver_find_elements (ByTagName "div")) ;;
     if nonempty elements then
       let candidates := firstn 20 elements in
       i <- call [] (total (choice (List.length candidates))) ;;
       match nth_error candidates i with
       | Some random_element =>
           try_except
             (call [] (actions_move_to_element random_element) ;;
              time_sleep (Uniform 2 5))
             (fun _ => ret tt)
       | None => raise IndexError
       end
     else ret tt)
    (fun _ => ret tt).

(** The loop over [modal_selectors]. *)
Fixpoint close_overlays (selectors : list string) : M W unit :=
  match selectors with
  | [] => ret tt
  | selector :: rest =>
      try_except
        (close_button <- call [] (driver_find_element (ByCssSelector selector)) ;;
         shown <- call [] (element_is_displayed close_button) ;;
         if shown then
           call [] (element_click close_button) ;; time_sleep (Seconds 1)
         else ret tt)
        (fun _ => ret tt) ;;
      close_overlays rest
  end.

(** [handle_potential_overlays(driver)] *)
Definition handle_potential_overlays : M W unit :=
  try_except
    (close_overlays modal_selectors ;;
     try_except
       (call [] actions_send_escape ;; time_sleep (Seconds 1))
       (fun _ => ret tt))
    (fun _ => ret tt).

(** [detect_blocking(driver)] *)
Definition detect_blocking : M W bool :=
  try_except
    (page_source <- call [] driver_page_source ;;
     if existsb (fun indicator => contains indicator (lower page_source))
                blocking_indicators
     then ret true
     else if len page_source <? 5000 then ret true
     else
       company_rows <- call [] (driver_find_elements (ByClassName row_class)) ;;
       if negb (nonempty company_rows) then ret true else ret false)
    (fun _ => ret true).

(** The polling loop of [wait_for_ajax_content_load]; [n] is the number of
    times the guard on the clock still holds. *)
Fixpoint ajax_poll (n : nat) (expected_count last_count : Z) : M W bool :=
  match n with
  | O => ret false
  | S k =>
      step <- try_except
                (current_rows <-
                   call [] (driver_find_elements (ByClassName row_class)) ;;
                 let current_count := llen current_rows in
                 if (current_count >? last_count)
                    && (current_count >=? expected_count)
                 then ret (true, current_count)
                 else
                   simulate_real_browser_behavior ;;
                   time_sleep (Seconds 2) ;;
                   ret (false, if current_count >? last_count
                               then current_count else last_count))
                (fun _ => time_sleep (Seconds 2) ;; ret (false, last_count)) ;;
      if fst step then ret true
      else ajax_poll k expected_count (snd step)
  end.

(** [wait_for_ajax_content_load(driver, expected_count, timeout)] *)
Definition wait_for_ajax_content_load (expected_count timeout : Z) : M W bool :=
  n <- observe (polls timeout) ;;
  ajax_poll n expected_count 0.

(** The indicators [wait_for_page_load_with_retry] looks for. *)
Definition load_indicators : list string := [ "blocked"; "captcha"; "cloudflare" ].

(** The polling loop of [wait_for_page_load_with_retry]; [n] is the number
    of times the guard on the clock still holds.  Its two handlers (for
    [TimeoutException] and for any other exception) sleep two seconds and
    go on, and are one here. *)
Fixpoint page_load_poll (n : nat) (expected_elements : string) : M W bool :=
  match n with
  | O => ret false
  | S k =>
      loaded <- try_except
                  (call [] (wait_presence_all 5 (ByCssSelector expected_elements)) ;;
                   page_source <- call [] driver_page_source ;;
                   if len page_source <? 5000
                   then time_sleep (Seconds 2) ;; ret false
                   else if existsb (fun indicator =>
                                      contains indicator (lower page_source))
                                   load_indicators
                   then time_sleep (Seconds 3) ;; ret false
                   else ret true)
                  (fun _ => time_sleep (Seconds 2) ;; ret false) ;;
      if loaded then ret true else page_load_poll k expected_elements
  end.

(** [wait_for_page_load_with_retry(driver, expected_elements, max_wait)] *)
Definition wait_for_page_load_with_retry (expected_elements : string)
  (max_wait : Z) : M W bool :=
  n <- observe (polls max_wait) ;;
  page_load_poll n expected_elements.

End WithWorld.
End BrowserUtils.

(** ** base_scraper.py *)

Module BaseScraper.
Import Py Dict Soup Effects.
Local Open Scope py_scope.

Definition default_config : config :=
  {| base_url := "https://getlatka.com/saas-companies";
     pages_to_scrape := 5;
     delay_between_requests := 2;
     timeout := 10;
     output_dir := "output";
     use_selenium := true;
     headless := true;
     max_workers := 4;
     chunk_size := 5 |}.

Section WithWorld.
Context {W elem response : Type} {ops : World W elem response}.

Definition set_config (c : config) : M W unit :=
  fun st => Ok tt {| self_config := c; self_driver := self_driver st;
                     world := world st; trace := trace st |}.

Definition has_driver : M W bool := fun st => Ok (self_driver st) st.

(** [_setup_driver(self)] *)
Definition _setup_driver : M W unit :=
  cfg <- get_config ;;
  if negb (use_selenium cfg) then ret tt
  else
    try_except
      (call [] chrome_start ;;
       set_driver true ;;
       call [] driver_set_window)
      (fun _ => set_use_selenium false).

(** [BaseScraper.__init__(self, config)] *)
Definition init (cfg : option config) : M W unit :=
  set_config (match cfg with Some c => c | None => default_config end) ;;
  set_driver false ;;
  _setup_driver ;;
  cfg <- get_config ;;
  call [] (makedirs (output_dir cfg)).

(** [close(self)] *)
Definition close : M W unit :=
  d <- has_driver ;;
  if d then
    try_except (call [] driver_quit ;; set_driver false) (fun _ => ret tt)
  else ret tt.

(** [save_to_json(self, data, filename)] *)
Definition save_to_json (data : list dict) (filename : string) : M W unit :=
  cfg <- get_config ;;
  let filepath := path_join (output_dir cfg) filename in
  call [WriteJson filepath data] (write_json filepath data).

(** The browser attempt of [_get_page_content]: the body of its first
    [try]. *)
Definition browser_fetch (url : string) : M W string :=
  cfg <- get_config ;;
  call [DriverGet url] (driver_get url) ;;
  time_sleep (Seconds (delay_between_requests cfg)) ;;
  call [] (wait_presence (timeout cfg) (ByTagName "body")) ;;
  call [] driver_page_source.

(** The direct request of [_get_page_content]: its second [try] with the
    handler. *)
Definition http_fetch (url : string) : M W (option string) :=
  cfg <- get_config ;;
  try_except
    (response <- call [HttpGet url (timeout cfg)]
                      (session_get url (timeout cfg)) ;;
     of_exc (raise_for_status response) ;;
     ret (Some (response_text response)))
    (fun _ => ret None).

(** [_get_page_content(self, url)] *)
Definition _get_page_content (url : string) : M W (option string) :=
  enabled <- browser_enabled ;;
  from_browser <-
    (if enabled
     then try_except (page_source <- browser_fetch url ;; ret (Some page_source))
                     (fun _ => ret None)
     else ret None) ;;
  match from_browser with
  | Some page_source => ret (Some page_source)
  | None => http_fetch url
  end.

End WithWorld.
End BaseScraper.

(** ** saas_scraper.py *)

Module SaasScraper.
Import Py Dict Soup Effects DataExtractor BrowserUtils BaseScraper.
Local Open Scope py_scope.

Definition name_link_selector := "a.cells_link__PfQot".

Definition next_button_selector :=
  "a.pagination_button__gUpxa.pagination_special_button__XQ4Z3.pagination-next-link".

(** How the loop of [scrape_companies_list] is left: it runs to its end or
    is left by [break]; a [return] inside it; an exception on its way to
    the handler around it.  The list gathered so far stays with the first
    and the last. *)
Inductive flow : Type :=
| Completed (all_companies : list dict)
| Returned (result : list dict)
| Raised (all_companies : list dict) (e : exn).

Section WithWorld.
Context {W elem response : Type} {ops : World W elem response} {lib : Library}.

(** The rows of a parsed page: the records with a name. *)
Definition named (company_data : dict) : bool :=
  is_true (lookup "Company Name" company_data).

Definition extract_markup_rows (rows : list node) : list dict :=
  flat_map (fun row =>
              let company_data := extract_company_data_from_card row in
              if named company_data then [company_data] else []) rows.

(** The rows of the live page: each is read as markup and parsed; a row
    whose reading raises is passed over. *)
Fixpoint extract_rows (rows : list elem) : M W (list dict) :=
  match rows with
  | [] => ret []
  | row :: rest =>
      found <- try_except
                 (row_html <- call [] (element_get_attribute row "outerHTML") ;;
                  let soup := html_parser row_html in
                  let company_data := extract_company_data_from_card soup in
                  if named company_data then ret [company_data] else ret [])
                 (fun _ => ret []) ;;
      others <- extract_rows rest ;;
      ret (found ++ others)%list
  end.

(** [_process_companies_chunk]: one company. *)
Definition process_company (company : dict) : M W dict :=
  try_except
    (if is_true (lookup "Company Hyperlink" company) then
       match get_str "Company Hyperlink" company with
       | Some profile_url =>
           cfg <- get_config ;;
           time_sleep (Seconds (delay_between_requests cfg)) ;;
           content <- _get_page_content profile_url ;;
           match content with
           | Some c =>
               if truthy c then
                 let soup := html_parser c in
                 let profile_data := extract_company_profile soup in
                 ret (merge company profile_data)
               else ret company
           | None => ret company
           end
       | None => raise TypeError
       end
     else ret company)
    (fun _ => ret company).

(** [_process_companies_chunk(self, companies_chunk)] *)
Fixpoint _process_companies_chunk (companies_chunk : list dict)
  : M W (list dict) :=
  match companies_chunk with
  | [] => ret []
  | company :: rest =>
      detailed_company <- process_company company ;;
      others <- _process_companies_chunk rest ;;
      ret (detailed_company :: others)
  end.

(** The names of the given rows; a row without a name link is passed
    over. *)
Fixpoint company_names (rows : list elem) : M W (list string) :=
  match rows with
  | [] => ret []
  | row :: rest =>
      found <- try_except
                 (link <- call [] (element_find_element row
                                     (ByCssSelector name_link_selector)) ;;
                  text <- call [] (element_text link) ;;
                  ret [strip text])
                 (fun _ => ret []) ;;
      others <- company_names rest ;;
      ret (found ++ others)%list
  end.

(** The page state signature: the names of the first five rows. *)
Definition capture_signature : M W (list string) :=
  current_rows <- call [] (driver_find_elements (ByClassName row_class)) ;;
  company_names (firstn 5 current_rows).

(** Finding the next-page control and activating it: by script, then by a
    native click. *)
Definition click_next : M W bool :=
  next_button <- call [] (wait_clickable 10 (ByCssSelector next_button_selector)) ;;
  call [] (driver_execute_script (ScrollIntoView next_button)) ;;
  time_sleep (Seconds 2) ;;
  click_success <- try_except
                     (call [] (driver_execute_script (ScriptClick next_button)) ;;
                      ret true)
                     (fun _ => ret false) ;;
  if negb click_success then
    try_except (call [] (element_click next_button) ;; ret true)
               (fun _ => ret false)
  else ret click_success.

(** The verdict on two signatures. *)
Definition content_changed (current_companies previous_companies : list string)
  : bool :=
  match current_companies, previous_companies with
  | c :: _, p :: _ => negb (String.eqb c p)
  | _, _ => false
  end.

(** [_navigate_to_next_page(self, current_page)] *)
Definition _navigate_to_next_page (current_page : Z) : M W bool :=
  try_except
    (handle_potential_overlays ;;
     simulate_real_browser_behavior ;;
     previous_companies <- capture_signature ;;
     click_success <- click_next ;;
     if negb click_success then ret false
     else
       loaded <- wait_for_ajax_content_load 20 30 ;;
       if loaded then
         current_companies <- capture_signature ;;
         if content_changed current_companies previous_companies
         then ret true
         else ret false
       else ret false)
    (fun _ => ret false).

(** The URL of a results page. *)
Definition page_url (cfg : config) (page : Z) : string :=
  if page >? 1 then base_url cfg ++ "?page=" ++ str_of_int page
  else base_url cfg.

(** The loop of [_scrape_with_requests_fallback]. *)
Fixpoint fallback_pages (pages : list Z) (all_companies : list dict)
  : M W (list dict) :=
  match pages with
  | [] => ret all_companies
  | page :: rest =>
      cfg <- get_config ;;
      content <- _get_page_content (page_url cfg page) ;;
      match content with
      | Some c =>
          if truthy c then
            let soup := html_parser c in
            let company_rows := find_all_class soup "tr" row_class in
            if negb (nonempty company_rows) then fallback_pages rest all_companies
            else
              let page_companies := extract_markup_rows company_rows in
              let all_companies :=
                if nonempty page_companies
                then (all_companies ++ page_companies)%list else all_companies in
              time_sleep (Seconds (delay_between_requests cfg)) ;;
              fallback_pages rest all_companies
          else fallback_pages rest all_companies
      | None => fallback_pages rest all_companies
      end
  end.

(** [_scrape_with_requests_fallback(self)] *)
Definition _scrape_with_requests_fallback : M W (list dict) :=
  cfg <- get_config ;;
  fallback_pages (range 1 (pages_to_scrape cfg + 1)) [].

(** A step of the list loop: an exception leaves the loop with the list
    gathered so far. *)
Definition attempt {A} (all_companies : list dict) (m : M W A)
  (k : A -> state W -> flow * state W) : state W -> flow * state W :=
  fun st =>
    match m st with
    | Ok a st' => k a st'
    | Raise e st' => (Raised all_companies e, st')
    end.

(** [return self._scrape_with_requests_fallback()] inside the loop. *)
Definition switch_to_requests (all_companies : list dict)
  : state W -> flow * state W :=
  attempt all_companies _scrape_with_requests_fallback
          (fun result st => (Returned result, st)).

(** Waiting for the rows of a page: [Some page_source] when the wait timed
    out and the handler read the page source. *)
Definition await_rows : M W (option string) :=
  try_except_only TimeoutException
    (call [] (wait_presence_all 15 (ByClassName row_class)) ;; ret None)
    (page_source <- call [] driver_page_source ;; ret (Some page_source)).

(** The loop of [scrape_companies_list] over the pages. *)
Fixpoint list_pages (pages : list Z) (all_companies : list dict)
  : state W -> flow * state W :=
  match pages with
  | [] => fun st => (Completed all_companies, st)
  | page :: rest =>
      attempt all_companies await_rows (fun timed_out =>
        match timed_out with
        | Some page_source =>
            if len page_source <? 5000 then
              if page >? 1 then switch_to_requests all_companies
              else fun st => (Completed all_companies, st)
            else list_pages rest all_companies
        | None =>
            attempt all_companies
              (call [] (driver_find_elements (ByClassName row_class)))
              (fun rows =>
            attempt all_companies (extract_rows rows) (fun page_companies =>
            let all_companies :=
              if nonempty page_companies
              then (all_companies ++ page_companies)%list else all_companies in
            attempt all_companies
              (cfg <- get_config ;;
               if page <? pages_to_scrape cfg
               then _navigate_to_next_page page else ret true)
              (fun moved =>
            if negb moved then switch_to_requests all_companies
            else
              attempt all_companies
                (cfg <- get_config ;;
                 time_sleep (Seconds (delay_between_requests cfg)))
                (fun _ => list_pages rest all_companies))))
        end)
  end.

(** [scrape_companies_list(self)] *)
Definition scrape_companies_list : M W (list dict) :=
  fun st =>
    let cfg := self_config st in
    let '(early, all_companies, st1) :=
      if use_selenium cfg && self_driver st then
        match (call [DriverGet (base_url cfg)] (driver_get (base_url cfg)) ;;
               time_sleep (Seconds 5)) st with
        | Raise _ st' => (None, [], st')
        | Ok _ st' =>
            match list_pages (range 1 (pages_to_scrape cfg + 1)) [] st' with
            | (Completed all_companies, s) => (None, all_companies, s)
            | (Raised all_companies _, s) => (None, all_companies, s)
            | (Returned result, s) => (Some result, [], s)
            end
        end
      else (None, [], st) in
    match early with
    | Some result => Ok result st1
    | None =>
        if negb (nonempty all_companies)
        then _scrape_with_requests_fallback st1
        else Ok all_companies st1
    end.

(** [scrape_company_profile(self, company_url)] *)
Definition scrape_company_profile (company_url : string) : M W dict :=
  enabled <- browser_enabled ;;
  content <-
    (if enabled then
       try_except
         (call [DriverGet company_url] (driver_get company_url) ;;
          call [] (wait_presence 10 (ByCssSelector "section#details")) ;;
          page_source <- call [] driver_page_source ;;
          ret (Some page_source))
         (fun _ => ret None)
     else
       content <- _get_page_content company_url ;;
       match content with
       | Some c => if truthy c then ret (Some c) else ret None
       | None => ret None
       end) ;;
  match content with
  | Some c => ret (extract_company_profile (html_parser c))
  | None => ret []
  end.

(** [[companies_list[i:i + chunk_size]
      for i in range(0, len(companies_list), chunk_size)]] *)
Definition company_chunks (companies_list : list dict) (chunk_size : Z)
  : exc (list (list dict)) :=
  exc_bind (range3 0 (llen companies_list) chunk_size) (fun starts =>
  Val (map (fun i => slice companies_list i (i + chunk_size)) starts)).

(** Enrichment through the browser, one company after the other. *)
Fixpoint enrich_in_browser (companies_list : list dict) : M W (list dict) :=
  match companies_list with
  | [] => ret []
  | company :: rest =>
      merged <- try_except
                  (detailed_data <-
                     match get_str "Company Hyperlink" company with
                     | Some profile_url =>
                         if truthy profile_url
                         then scrape_company_profile profile_url
                         else ret []
                     | None => ret []
                     end ;;
                   ret (merge company detailed_data))
                  (fun _ => ret company) ;;
      others <- enrich_in_browser rest ;;
      ret (merged :: others)
  end.

(** The results of the worker pool, gathered in the order in which the
    chunks complete; a chunk is processed as one step. *)
Fixpoint gather (chunks : list (list dict)) (order : list nat)
  (detailed_companies : list dict) : M W (list dict) :=
  match order with
  | [] => ret detailed_companies
  | i :: rest =>
      chunk_results <-
        match nth_error chunks i with
        | Some chunk =>
            try_except (_process_companies_chunk chunk) (fun _ => ret [])
        | None => ret []
        end ;;
      gather chunks rest (detailed_companies ++ chunk_results)%list
  end.

(** [scrape_all_company_profiles(self, companies_list)] *)
Definition scrape_all_company_profiles (companies_list : list dict)
  : M W (list dict) :=
  if negb (nonempty companies_list) then ret []
  else
    enabled <- browser_enabled ;;
    if enabled then enrich_in_browser companies_list
    else
      cfg <- get_config ;;
      chunks <- of_exc (company_chunks companies_list (chunk_size cfg)) ;;
      (if max_workers cfg <=? 0 then raise ValueError else ret tt) ;;
      order <- observe (completion_order (List.length chunks)) ;;
      gather chunks order [].

(** [scrape_specific_page(self, page_number)] *)
Definition scrape_specific_page (page_number : Z) : M W (list dict) :=
  if page_number <? 1 then raise ValueError
  else
    cfg <- get_config ;;
    let url := page_url cfg page_number in
    enabled <- browser_enabled ;;
    companies <-
      (if enabled then
         try_except
           (call [DriverGet url] (driver_get url) ;;
            time_sleep (Seconds 5) ;;
            call [] (wait_presence_all 15 (ByClassName row_class)) ;;
            rows <- call [] (driver_find_elements (ByClassName row_class)) ;;
            extract_rows rows)
           (fun _ => ret [])
       else ret []) ;;
    companies <-
      (if negb (nonempty companies) then
         try_except
           (content <- _get_page_content url ;;
            match content with
            | Some c =>
                if truthy c then
                  let soup := html_parser c in
                  let rows := find_all_class soup "tr" row_class in
                  ret (extract_markup_rows rows)
                else ret []
            | None => ret []
            end)
           (fun _ => ret [])
       else ret companies) ;;
    (if nonempty companies
     then save_to_json companies
            ("companies_page_" ++ str_of_int page_number ++ ".json")
     else ret tt) ;;
    ret companies.

(** The loop of [scrape_page_range].  When the pause after a page raises,
    [all_companies.extend] has taken place: the handler goes on to the next
    page with the extended list. *)
Fixpoint range_pages (end_page : Z) (pages : list Z) (all_companies : list dict)
  : M W (list dict) :=
  match pages with
  | [] => ret all_companies
  | page_number :: rest =>
      all_companies <-
        try_except
          (companies <- scrape_specific_page page_number ;;
           let all_companies :=
             if nonempty companies
             then (all_companies ++ companies)%list else all_companies in
           try_except
             (cfg <- get_config ;;
              if page_number <? end_page
              then time_sleep (Seconds (delay_between_requests cfg))
              else ret tt)
             (fun _ => ret tt) ;;
           ret all_companies)
          (fun _ => ret all_companies) ;;
      range_pages end_page rest all_companies
  end.

Definition range_file (start_page end_page : Z) : string :=
  "companies_pages_" ++ str_of_int start_page ++ "_to_" ++
  str_of_int end_page ++ ".json".

(** [scrape_page_range(self, start_page, end_page)] *)
Definition scrape_page_range (start_page end_page : Z) : M W (list dict) :=
  if start_page <? 1 then raise ValueError
  else if end_page <? start_page then raise ValueError
  else
    all_companies <- range_pages end_page (range start_page (end_page + 1)) [] ;;
    (if nonempty all_companies
     then save_to_json all_companies (range_file start_page end_page)
     else ret tt) ;;
    ret all_companies.

(** The question about detailed profiles and what follows it. *)
Definition offer_profiles (companies : list dict) (filename : string)
  : M W unit :=
  response <- call [] console_input ;;
  if String.eqb (strip (lower response)) "y" then
    detailed_companies <- scrape_all_company_profiles companies ;;
    save_to_json detailed_companies filename
  else ret tt.

(** [run_single_page(self, page_number)]; its handler logs and raises
    again. *)
Definition run_single_page (page_number : Z) : M W unit :=
  try_finally
    (companies <- scrape_specific_page page_number ;;
     if negb (nonempty companies) then ret tt
     else offer_profiles companies
            ("detailed_companies_page_" ++ str_of_int page_number ++ ".json"))
    close.

(** [run_page_range(self, start_page, end_page)] *)
Definition run_page_range (start_page end_page : Z) : M W unit :=
  try_finally
    (companies <- scrape_page_range start_page end_page ;;
     if negb (nonempty companies) then ret tt
     else offer_profiles companies
            ("detailed_companies_pages_" ++ str_of_int start_page ++ "_to_" ++
             str_of_int end_page ++ ".json"))
    close.


End WithWorld.
End SaasScraper.

(** ** main.py *)

Module Main.
Import Py Dict Soup Effects BaseScraper SaasScraper.
Local Open Scope py_scope.

Definition nl : string := String (ascii_of_nat 10) EmptyString.

(** The texts [print_usage] prints, one per call of [print]. *)
Definition usage_text : list string :=
  [ nl ++ "Usage:";
    "1. Scrape all pages (default, pages 1-5):";
    "   python main.py";
    nl ++ "2. Scrape a single page:";
    "   python main.py <page_number>";
    "   Example: python main.py 2";
    nl ++ "3. Scrape a range of pages:";
    "   python main.py <start_page> <end_page>";
    "   Example: python main.py 1 5" ].

(** The name of an exception stands for its message. *)
Definition exn_str (e : exn) : string :=
  match e with
  | ValueError => "ValueError"
  | TypeError => "TypeError"
  | OverflowError => "OverflowError"
  | IndexError => "IndexError"
  | EOFError => "EOFError"
  | OSError => "OSError"
  | TimeoutException => "TimeoutException"
  | WebDriverException => "WebDriverException"
  | RequestException => "RequestException"
  | HTTPError => "HTTPError"
  end.

Section WithWorld.
Context {W elem response : Type} {ops : World W elem response} {lib : Library}.

Fixpoint print_all (texts : list string) : M W unit :=
  match texts with
  | [] => ret tt
  | text :: rest => print text ;; print_all rest
  end.

(** [print_usage()] *)
Definition print_usage : M W unit := print_all usage_text.

(** An error branch: the message, the usage, [return 1]. *)
Definition usage_error (message : string) : M W (option Z) :=
  print (nl ++ message) ;;
  print_usage ;;
  ret (Some 1).

(** The branch of [main] for one argument. *)
Definition single_page_mode (arg : string) : M W (option Z) :=
  try_except_only ValueError
    (page_number <- of_exc (int_of_str arg) ;;
     if page_number <? 1
     then usage_error "Error: Page number must be 1 or greater"
     else run_single_page page_number ;; ret None)
    (usage_error "Error: Please provide a valid page number").

(** The branch of [main] for two arguments. *)
Definition page_range_mode (arg1 arg2 : string) : M W (option Z) :=
  try_except_only ValueError
    (start_page <- of_exc (int_of_str arg1) ;;
     end_page <- of_exc (int_of_str arg2) ;;
     if start_page <? 1
     then usage_error "Error: Start page must be 1 or greater"
     else if end_page <? start_page
     then usage_error
            "Error: End page must be greater than or equal to start page"
     else run_page_range start_page end_page ;; ret None)
    (usage_error "Error: Please provide valid page numbers").

(** [main()] with [sys.argv = argv]; the value is the exit status that
    [sys.exit(main())] hands to the system. *)
Definition main (argv : list string) : M W Z :=
  try_except
    (init None ;;
     returned <-
       match argv with
       | [_] =>
           print (nl ++ "No page numbers provided. Using default: pages 1-5") ;;
           run_page_range 1 5 ;;
           ret None
       | [_; arg] => single_page_mode arg
       | [_; arg1; arg2] => page_range_mode arg1 arg2
       | _ => usage_error "Error: Too many arguments"
       end ;;
     match returned with
     | Some status => ret status
     | None =>
         print (nl ++ "Check the 'output' directory for results.") ;;
         ret 0
     end)
    (fun e => print (nl ++ "Error: " ++ exn_str e) ;; ret 1).

(** The state in which the program starts: no scraper object yet. *)
Definition start (w : W) : state W :=
  {| self_config := default_config; self_driver := false;
     world := w; trace := [] |}.

End WithWorld.
End Main.

(** ** Vocabulary of the properties *)

Module Spec.
Import Py Dict Soup Effects DataExtractor BrowserUtils BaseScraper SaasScraper.
Local Open Scope py_scope.

(** The number of cells of the expected class in a row. *)
Definition cell_count (card : node) : Z :=
  llen (find_all_class card "td" cell_class).

Section WithWorld.
Context {W elem response : Type} {ops : World W elem response} {lib : Library}.

(** The state a run ends in. *)
Definition final {A} (r : res (state W) A) : state W :=
  match r with
  | Ok _ st | Raise _ st => st
  end.

(** From [st] to [st'] the scraper object is unchanged and the trace grows
    by events whose fetched URLs satisfy [Q]. *)
Definition grows (Q : list string -> Prop) (st st' : state W) : Prop :=
  self_config st' = self_config st /\
  self_driver st' = self_driver st /\
  exists evs, trace st' = (trace st ++ evs)%list /\ Q (fetches evs).


(** The browser gave no content for [url]: it is not in use, or the attempt
    raised, leaving the state [st1]. *)
Definition browser_yields_nothing (url : string) (st st1 : state W) : Prop :=
  (use_selenium (self_config st) && self_driver st = false /\ st1 = st) \/
  (use_selenium (self_config st) && self_driver st = true /\
   exists e, browser_fetch url st = Raise e st1).

(** The state after the one request of [http_fetch]. *)
Definition requested (url : string) (st : state W) (w : W) : state W :=
  {| self_config := self_config st; self_driver := self_driver st;
     world := w;
     trace := (trace st ++ [HttpGet url (timeout (self_config st))])%list |}.

(** A state with further events in its trace. *)
Definition logged (st : state W) (evs : list event) : state W :=
  {| self_config := self_config st; self_driver := self_driver st;
     world := world st; trace := (trace st ++ evs)%list |}.

(** What [_navigate_to_next_page] does before it looks at the page. *)
Definition approach : M W unit :=
  handle_potential_overlays ;; simulate_real_browser_behavior.

(** A navigation attempt that got through the click and the settle wait:
    the signatures before and after, and the state it ends in. *)
Definition settled (st : state W) (previous current : list string)
  (st' : state W) : Prop :=
  exists sA sB sC sD,
    approach st = Ok tt sA /\
    capture_signature sA = Ok previous sB /\
    click_next sB = Ok true sC /\
    wait_for_ajax_content_load 20 30 sC = Ok true sD /\
    capture_signature sD = Ok current st'.





End WithWorld.


(** The digits of a decimal numeral, most significant first. *)
Fixpoint uint_digits (d : Decimal.uint) : list Z :=
  match d with
  | Decimal.Nil => []
  | Decimal.D0 l => 0 :: uint_digits l
  | Decimal.D1 l => 1 :: uint_digits l
  | Decimal.D2 l => 2 :: uint_digits l
  | Decimal.D3 l => 3 :: uint_digits l
  | Decimal.D4 l => 4 :: uint_digits l
  | Decimal.D5 l => 5 :: uint_digits l
  | Decimal.D6 l => 6 :: uint_digits l
  | Decimal.D7 l => 7 :: uint_digits l
  | Decimal.D8 l => 8 :: uint_digits l
  | Decimal.D9 l => 9 :: uint_digits l
  end.

(** The value of a decimal numeral: an optional sign and one digit part. *)
Definition numeral_value (s : string) : option Z :=
  let (neg, body) := sign s in
  match digitpart body with
  | Some (ds, EmptyString) =>
      Some (if neg then - digits_value ds else digits_value ds)
  | _ => None
  end.

(** The number of digits of the decimal text of an integer. *)
Definition digit_count (n : Z) : nat := String.length (str_of_int (Z.abs n)).

(** Every character of [s] passes the test [P]. *)
Fixpoint all_chars (P : ascii -> bool) (s : string) : bool :=
  match s with
  | EmptyString => true
  | String c s' => P c && all_chars P s'
  end.

(** A character of a decimal numeral: a digit or the minus sign. *)
Definition numeral_char (c : ascii) : bool := is_digit c || Ascii.eqb c "-".

(** The keys of a record, in order. *)
Definition keys (d : dict) : list string := map fst d.

Definition has_key (k : string) (d : dict) : bool :=
  existsb (String.eqb k) (keys d).

(** The keys of [b] that [a] lacks, in the order of [b]. *)
Definition new_keys (a b : dict) : list string :=
  filter (fun k => negb (has_key k a)) (keys b).

(** The fields only the list page provides. *)
Definition list_only_keys : list string :=
  [ "Company Name"; "Company Linkedin Url"; "Company Hyperlink";
    "Company Website URL"; "Founder Name"; "Location"; "Industry" ].

(** The fields a profile record can hold. *)
Definition profile_keys : list string :=
  [ "employee_count"; "ceo_name"; "founded_year"; "pricing_info";
    "top_products"; "description"; "Revenue"; "Growth"; "Funding" ].

Section Events.
Context {W elem response : Type} {ops : World W elem response}.

(** From [st] to [st'] the scraper object is unchanged and the trace grows
    by events satisfying [P]. *)
Definition steps (P : event -> Prop) (st st' : state W) : Prop :=
  self_config st' = self_config st /\
  self_driver st' = self_driver st /\
  exists evs, trace st' = (trace st ++ evs)%list /\ Forall P evs.

(** Every run of [m] by a scraper configured with [cfg] leaves the scraper
    object as it is and records only events satisfying [P]. *)
Definition emits_only (cfg : config) (P : event -> Prop) {A} (m : M W A)
  : Prop :=
  forall st, self_config st = cfg -> steps P st (final (m st)).

(** From [st] to [st'] nothing but the world has changed. *)
Definition quiet (st st' : state W) : Prop :=
  self_config st' = self_config st /\
  self_driver st' = self_driver st /\
  trace st' = trace st.

End Events.

(** No event. *)
Definition no_event (ev : event) : Prop := False.

(** Events other than the writing of a file. *)
Definition not_a_write (ev : event) : Prop :=
  match ev with
  | WriteJson _ _ => False
  | _ => True
  end.

Section Results.
Context {W elem response : Type} {ops : World W elem response} {lib : Library}.

(** Whatever [m] returns satisfies [Q]. *)
Definition yields {A} (Q : A -> Prop) (m : M W A) : Prop :=
  forall st a st', m st = Ok a st' -> Q a.







(** The name field of a record. *)
Definition name_of (company_data : dict) : option value :=
  lookup "Company Name" company_data.

(** A record after enrichment: the record of the list page itself, or
    that record merged with the fields read from some profile page. *)
Definition enriched (company detailed : dict) : Prop :=
  detailed = company \/
  exists soup, detailed = merge company (extract_company_profile soup).

(** Enrichment left the fields of the list page as they were. *)
Definition keeps_list_fields (company detailed : dict) : Prop :=
  forall k, In k list_only_keys -> lookup k detailed = lookup k company.

(** The files written by the events, in order, with what was written. *)
Fixpoint writes (evs : list event) : list (string * list dict) :=
  match evs with
  | [] => []
  | WriteJson path data :: rest => (path, data) :: writes rest
  | _ :: rest => writes rest
  end.



(** The last event of the run so far is the printing of [text]. *)
Definition last_print (st : state W) (text : string) : Prop :=
  exists earlier, trace st = (earlier ++ [Print text])%list.

(** The last line of [main] on a run that went through. *)
Definition check_output : string :=
  (Main.nl ++ "Check the 'output' directory for results.")%string.

(** The last line of the usage text. *)
Definition usage_last : string := "   Example: python main.py 1 5".

(** What a branch of [main] hands back: nothing, or status one after the
    usage text. *)
Definition branch_post (r : res (state W) (option Z)) : Prop :=
  match r with
  | Ok None _ => True
  | Ok (Some status) st' => status = 1 /\ last_print st' usage_last
  | Raise _ _ => True
  end.

End Results.

End Spec.

(** ** A small concrete world

    One browser showing numbered result pages of twenty rows, one HTTP
    server answering every request, one disk.  The switches say whether
    clicking moves to the next page, up to which page the rows appear in
    time, and which of browser, server and disk work. *)

Module Example.
Import Py Dict Soup Effects DataExtractor BrowserUtils BaseScraper SaasScraper.

Record toy : Type := {
  shown : Z;
  moves : bool;
  rows_until : Z;
  source : string;
  browser_up : bool;
  http_up : bool;
  disk_up : bool
}.

Definition show (p : Z) (w : toy) : toy :=
  {| shown := p; moves := moves w; rows_until := rows_until w;
     source := source w; browser_up := browser_up w; http_up := http_up w;
     disk_up := disk_up w |}.

Definition rows_of (w : toy) : list Z :=
  map (fun i => shown w * 100 + Z.of_nat i) (seq 0 20).

Definition next_page (w : toy) : toy :=
  if moves w then show (shown w + 1) w else w.

#[global] Instance toy_world : World toy Z string := {|
  chrome_start w := Ok tt w;
  driver_set_window w := Ok tt w;
  driver_get url w :=
    if browser_up w then Ok tt (show 1 w) else Raise WebDriverException w;
  driver_page_source w := Ok (source w) w;
  driver_find_elements loc w :=
    match loc with
    | ByClassName c => if String.eqb c row_class then Ok (rows_of w) w else Ok [] w
    | _ => Ok [] w
    end;
  driver_find_element loc w := Raise WebDriverException w;
  driver_execute_script s w :=
    match s with
    | ScriptClick _ => Ok tt (next_page w)
    | _ => Ok tt w
    end;
  driver_quit w := Ok tt w;
  element_find_element e loc w := Ok e w;
  element_text e w := Ok (" Company " ++ str_of_int e ++ " ") w;
  element_get_attribute e name w :=
    Ok (if e mod 100 =? 1 then "short:" else "row:" ++ str_of_int e) w;
  element_is_displayed e w := Ok true w;
  element_click e w := Ok tt (next_page w);
  actions_move_to_element e w := Ok tt w;
  actions_send_escape w := Ok tt w;
  wait_presence_all t loc w :=
    if shown w <=? rows_until w then Ok (rows_of w) w
    else Raise TimeoutException w;
  wait_presence t loc w := Ok 0 w;
  wait_clickable t loc w := Ok 0 w;
  session_get url t w :=
    if http_up w then Ok ("page:" ++ url) w else Raise RequestException w;
  raise_for_status r := Val tt;
  response_text r := r;
  write_json path data w := if disk_up w then Ok tt w else Raise OSError w;
  makedirs path w := Ok tt w;
  path_join a b := a ++ "/" ++ b;
  console_input w := Ok "n" w;
  sleep d w := w;
  randint lo hi w := (lo, w);
  choice n w := (O, w);
  completion_order n w := seq 0 n;
  polls t w := 3%nat
|}.

(** Markup of result rows: a full row has fifteen cells and a name link in
    the second; a short row has three cells, the name link among them. *)
Definition td (contents : list node) : node :=
  Tag "td" [("class", cell_class)] contents.

Definition name_link (name : string) : node :=
  Tag "a" [("class", "cells_link__PfQot"); ("href", "/company/" ++ name)]
      [NavigableString name].

Definition full_row (name : string) : node :=
  Tag "tr" [("class", row_class)]
      (td [] :: td [name_link name]
       :: List.repeat (td [NavigableString "x"]) 13).

Definition short_row (name : string) : node :=
  Tag "tr" [("class", row_class)] [td []; td [name_link name]; td []].

Definition document (contents : list node) : node :=
  Tag "[document]" [] contents.

#[global] Instance toy_library : Library := {|
  urljoin base href := base ++ href;
  select_one soup selector := None;
  html_parser content :=
    if startswith content "row:" then document [full_row (drop 4 content)]
    else if startswith content "short:" then document [short_row "Ghost"]
    else if startswith content "page:"
    then document [full_row (drop 5 content ++ "#1"); short_row "Ghost";
                   full_row (drop 5 content ++ "#2")]
    else document []
|}.

(** A string of [n] harmless characters. *)
Fixpoint filler (n : nat) : string :=
  match n with
  | O => EmptyString
  | S k => String "x" (filler k)
  end.

Definition toy0 : toy :=
  {| shown := 1; moves := true; rows_until := 100; source := filler (Z.to_nat 6000);
     browser_up := true; http_up := true; disk_up := true |}.

Definition scraper (cfg : config) (driver : bool) (w : toy) : state toy :=
  {| self_config := cfg; self_driver := driver; world := w; trace := [] |}.

Definition http_only : config := with_use_selenium false default_config.



End Example.

(** * Properties *)

Import Py Dict Soup Effects DataExtractor BrowserUtils BaseScraper SaasScraper.
Import Spec.

(** ** Employee counts *)

Lemma convert_employee_count_examples :
  convert_employee_count "1.4K" = Val (Some 1400) /\
  convert_employee_count "2M" = Val (Some 2000000) /\
  convert_employee_count "500" = Val (Some 500) /\
  convert_employee_count "n/a" = Val None.
Proof. repeat split; vm_compute; reflexivity. Qed.

(** [int()] and [float()] skip blanks, tabs and line ends around a literal,
    not the separator characters 28 to 31 that [str.strip] removes; a
    no-break space counts as a blank; underscores may separate digits. *)
Lemma number_parsing_examples :
  int_of_str " 12 " = Val 12 /\
  int_of_str "+1_000" = Val 1000 /\
  int_of_str (String (ascii_of_nat 31) "2") = Exn ValueError /\
  int_of_str (String (ascii_of_nat 160) "5") = Val 5 /\
  int_of_str "2.0" = Exn ValueError /\
  int_of_str "" = Exn ValueError /\
  float_of_str (String "7" (String (ascii_of_nat 28) "")) = Exn ValueError /\
  convert_employee_count (String "7" (String (ascii_of_nat 28) "K"))
    = Val None.
Proof. repeat split; vm_compute; reflexivity. Qed.

Lemma int_of_str_raises (s : string) (e : exn) :
  int_of_str s = Exn e -> e = ValueError.
Proof.
  unfold int_of_str. destruct (sign (number_strip s)) as [neg body].
  destruct (digitpart body) as [[ds [|c r]]|]; try congruence.
  destruct (_ <? _)%nat; congruence.
Qed.

Lemma float_of_str_raises (s : string) (e : exn) :
  float_of_str s = Exn e -> e = ValueError.
Proof.
  unfold float_of_str. destruct (sign (number_strip s)) as [neg body].
  destruct (_ || _); [discriminate|].
  destruct (String.eqb _ _); [discriminate|].
  destruct (mantissa body) as [[[ip fp] rest]|]; [|congruence].
  destruct (exponent rest) as [[x [|c r]]|]; congruence.
Qed.

Lemma int_of_float_raises (x : float) (e : exn) :
  int_of_float x = Exn e -> e = OverflowError \/ e = ValueError.
Proof. destruct x; simpl; intros H; inversion H; auto. Qed.

(** The only exception that leaves [convert_employee_count] is the
    [OverflowError] of [int()] on an infinite float. *)
Lemma convert_employee_count_raises (s : string) (e : exn) :
  convert_employee_count s = Exn e -> e = OverflowError.
Proof.
  unfold convert_employee_count, exc_catch, exc_bind.
  set (u := upper (strip s)).
  assert (scaled : forall t k r,
    match match float_of_str t with
          | Val number =>
              match int_of_float (fmul number k) with
              | Val n => Val (Some n)
              | Exn e0 => Exn e0
              end
          | Exn e0 => Exn e0
          end with
    | Val a => Val a
    | Exn e0 => if exn_eqb e0 ValueError || exn_eqb e0 TypeError
                then Val None else Exn e0
    end = Exn r -> r = OverflowError).
  { intros t k r. destruct (float_of_str t) as [x|e0] eqn:F.
    - destruct (int_of_float (fmul x k)) as [n|e1] eqn:I; [discriminate|].
      destruct (int_of_float_raises _ _ I) as [-> | ->]; simpl; congruence.
    - rewrite (float_of_str_raises _ _ F). simpl. discriminate. }
  destruct (contains "K" u); [apply scaled|].
  destruct (contains "M" u); [apply scaled|].
  destruct (int_of_str u) as [n|e0] eqn:I; [discriminate|].
  rewrite (int_of_str_raises _ _ I). simpl. discriminate.
Qed.

(** C7.  [convert_employee_count] does not return [None] on every string
    that holds no count: on "infK" the float is infinite and the
    [OverflowError] of [int()] leaves the function, whose handler names
    [ValueError] and [TypeError] only. *)
Theorem convert_employee_count_infK :
  convert_employee_count "infK" = Exn OverflowError.
Proof. vm_compute. reflexivity. Qed.

(** ** Records *)

Lemma lookup_set_same (k : string) (v : value) (d : dict) :
  lookup k (set k v d) = Some v.
Proof.
  induction d as [|[k' v'] d IH]; simpl.
  - now rewrite String.eqb_refl.
  - destruct (String.eqb k k') eqn:E; simpl; rewrite E; auto.
Qed.

Lemma lookup_set_other (k k' : string) (v : value) (d : dict) :
  k <> k' -> lookup k (set k' v d) = lookup k d.
Proof.
  intros N. induction d as [|[k0 v0] d IH]; simpl.
  - destruct (String.eqb_spec k k'); congruence.
  - destruct (String.eqb_spec k' k0) as [->|]; simpl.
    + destruct (String.eqb_spec k k0); congruence.
    + destruct (String.eqb_spec k k0); auto.
Qed.

Lemma lookup_none_keys (k : string) (d : dict) :
  ~ In k (map fst d) -> lookup k d = None.
Proof.
  induction d as [|[k' v'] d IH]; simpl; auto.
  intros N. destruct (String.eqb_spec k k') as [->|]; [tauto|].
  apply IH. tauto.
Qed.

Lemma lookup_merge (company profile_data : dict) (k : string) :
  NoDup (map fst profile_data) ->
  lookup k (merge company profile_data) =
  match lookup k profile_data with
  | Some v => Some v
  | None => lookup k company
  end.
Proof.
  unfold merge. revert company.
  induction profile_data as [|[k1 v1] p IH]; intros company D; simpl; auto.
  inversion D as [|? ? Hnotin D']; subst.
  rewrite (IH _ D'). simpl in Hnotin.
  destruct (String.eqb_spec k k1) as [->|N].
  - rewrite (lookup_none_keys _ _ Hnotin). apply lookup_set_same.
  - destruct (lookup k p); auto. now apply lookup_set_other.
Qed.



Lemma in_keys_set (k k' : string) (v : value) (d : dict) :
  In k' (map fst (set k v d)) <-> k' = k \/ In k' (map fst d).
Proof.
  induction d as [|[k0 v0] d IH]; simpl.
  - intuition.
  - destruct (String.eqb_spec k k0) as [->|N]; simpl; [intuition|].
    rewrite IH. intuition.
Qed.

Lemma nodup_keys_set (k : string) (v : value) (d : dict) :
  NoDup (map fst d) -> NoDup (map fst (set k v d)).
Proof.
  induction d as [|[k0 v0] d IH]; simpl; intros D.
  - repeat constructor. simpl. tauto.
  - inversion D as [|? ? Hnotin D']; subst.
    destruct (String.eqb_spec k k0) as [->|N]; simpl.
    + constructor; auto.
    + constructor; auto. rewrite in_keys_set. intuition.
Qed.

Lemma nodup_keys_merge (a b : dict) :
  NoDup (map fst a) -> NoDup (map fst (merge a b)).
Proof.
  unfold merge. revert a.
  induction b as [|[k v] b IH]; simpl; intros a D; auto.
  apply IH. now apply nodup_keys_set.
Qed.

(** The records of the profile extractor have no repeated key, so the
    merge law applies to them. *)
Lemma extract_company_profile_keys {lib : Library} (soup : node) :
  NoDup (map fst (extract_company_profile soup)).
Proof.
  unfold extract_company_profile.
  assert (E : NoDup (map fst empty_profile_data)).
  { simpl. repeat constructor; simpl; intuition discriminate. }
  set (p1 := match find_class soup "p" "p-text p-text_details" with
             | Some _ => _ | None => _ end).
  assert (D1 : NoDup (map fst p1)).
  { subst p1. destruct (find_class soup "p" _); auto using nodup_keys_set. }
  set (p2 := match find_id soup "section" "details" with
             | Some _ => _ | None => _ end).
  assert (D2 : NoDup (map fst p2)).
  { subst p2. destruct (find_id soup "section" "details"); auto.
    destruct (find_class n "div" "indicators"); auto.
    generalize (find_all_class n0 "div" "indicators__i").
    intros l. revert D1. generalize p1. induction l as [|i l IH]; simpl; auto.
    intros d Dd. apply IH. unfold indicator_data.
    destruct (find_class i "div" "indicators-text"); auto.
    destruct (find_class n1 "h4" "h4"); auto.
    destruct (find_class n1 "p" "p-indicators"); auto.
    repeat (match goal with |- context [if ?b then _ else _] => destruct b end);
      auto using nodup_keys_set. }
  destruct (select_one soup team_size_selector); auto.
  destruct (convert_employee_count _) as [[n0|]|]; auto using nodup_keys_set.
Qed.

(** ** The chunk partition *)

Lemma range_up_length (c stop : Z) (fuel : nat) (i : Z) :
  0 < c -> stop - i <= Z.of_nat fuel ->
  Z.of_nat (List.length (range_up fuel i stop c)) =
  Z.max 0 ((stop - i + c - 1) / c).
Proof.
  intros Hc. revert i. induction fuel as [|f IH]; intros i Hf.
  - simpl. assert ((stop - i + c - 1) / c <= 0); [|lia].
    assert (stop - i + c - 1 < c) by lia.
    destruct (Z_lt_le_dec (stop - i + c - 1) 0).
    + assert ((stop - i + c - 1) / c < 0); [|lia].
      apply Z.div_lt_upper_bound; lia.
    + rewrite Z.div_small; lia.
  - cbn [range_up]. destruct (Z.ltb_spec i stop).
    + cbn [List.length]. rewrite Nat2Z.inj_succ, IH by lia.
      replace (stop - i + c - 1) with (stop - (i + c) + c - 1 + 1 * c) by lia.
      rewrite Z.div_add by lia.
      assert (0 <= (stop - (i + c) + c - 1) / c); [|lia].
      apply Z.div_pos; lia.
    + simpl. assert ((stop - i + c - 1) / c <= 0); [|lia].
      destruct (Z_lt_le_dec (stop - i + c - 1) 0).
      * assert ((stop - i + c - 1) / c < 0); [|lia].
        apply Z.div_lt_upper_bound; lia.
      * rewrite Z.div_small; lia.
Qed.

Lemma slice_inside {A} (l : list A) (i c : Z) :
  0 <= i < llen l -> 0 < c ->
  slice l i (i + c) =
  firstn (Z.to_nat (Z.min (i + c) (llen l) - i)) (skipn (Z.to_nat i) l).
Proof.
  intros Hi Hc. unfold slice, llen in *.
  destruct (Z.ltb_spec i 0); [lia|].
  destruct (Z.ltb_spec (i + c) 0); [lia|].
  rewrite (Z.min_l i) by lia. reflexivity.
Qed.

Lemma chunks_concat {A} (l : list A) (c : Z) (fuel : nat) (i : Z) :
  0 < c -> 0 <= i -> llen l - i <= Z.of_nat fuel ->
  List.concat (map (fun j => slice l j (j + c)) (range_up fuel i (llen l) c)) =
  skipn (Z.to_nat i) l.
Proof.
  intros Hc. revert i. induction fuel as [|f IH]; intros i Hi Hf.
  - simpl. symmetry. apply skipn_all2. unfold llen in *. lia.
  - cbn [range_up]. destruct (Z.ltb_spec i (llen l)) as [Hlt|Hge].
    + cbn [map List.concat]. rewrite IH by lia.
      rewrite slice_inside by lia.
      set (k := Z.to_nat (Z.min (i + c) (llen l) - i)).
      destruct (Z_le_gt_dec (i + c) (llen l)) as [Hin|Hout].
      * replace (Z.to_nat (i + c)) with (k + Z.to_nat i)%nat by (subst k; lia).
        rewrite <- skipn_skipn. apply firstn_skipn.
      * rewrite (skipn_all2 (n := Z.to_nat (i + c))) by (unfold llen in *; lia).
        rewrite app_nil_r. apply firstn_all2.
        rewrite length_skipn. unfold llen in *. subst k. lia.
    + simpl. symmetry. apply skipn_all2. unfold llen in *. lia.
Qed.

(** C5.  For a positive chunk size the chunks, joined in index order, are
    the input list, and their number is the ceiling of [L / c]. *)
Theorem company_chunks_partition (companies_list : list dict) (chunk_size : Z) :
  0 < chunk_size ->
  exists chunks,
    company_chunks companies_list chunk_size = Val chunks /\
    List.concat chunks = companies_list /\
    llen chunks = (llen companies_list + chunk_size - 1) / chunk_size /\
    (llen chunks - 1) * chunk_size < llen companies_list
      <= llen chunks * chunk_size.
Proof.
  intros Hc. unfold company_chunks, range3, exc_bind.
  destruct (Z.eqb_spec chunk_size 0); [lia|].
  destruct (Z.gtb_spec chunk_size 0); [|lia].
  eexists. split; [reflexivity|].
  assert (L : 0 <= llen companies_list) by (unfold llen; lia).
  assert (N : llen (map (fun i => slice companies_list i (i + chunk_size))
                     (range_up (Z.to_nat (llen companies_list - 0)) 0
                        (llen companies_list) chunk_size)) =
              (llen companies_list + chunk_size - 1) / chunk_size).
  { unfold llen at 1. rewrite length_map, range_up_length by lia.
    rewrite Z.sub_0_r. apply Z.max_r. apply Z.div_pos; lia. }
  split; [|split; [exact N|]].
  - rewrite chunks_concat by lia. reflexivity.
  - rewrite N. set (L0 := llen companies_list) in *.
    pose proof (Z.div_mod (L0 + chunk_size - 1) chunk_size ltac:(lia)) as E.
    pose proof (Z.mod_pos_bound (L0 + chunk_size - 1) chunk_size Hc) as B.
    nia.
Qed.

Lemma company_chunks_partition_witness :
  exists chunks,
    company_chunks [[("Company Name", VStr "a")]; [("Company Name", VStr "b")];
                    [("Company Name", VStr "c")]] 2 = Val chunks /\
    List.concat chunks = [[("Company Name", VStr "a")]; [("Company Name", VStr "b")];
                     [("Company Name", VStr "c")]] /\
    llen chunks = 2.
Proof.
  destruct (company_chunks_partition
              [[("Company Name", VStr "a")]; [("Company Name", VStr "b")];
               [("Company Name", VStr "c")]] 2 ltac:(lia))
    as [chunks [E [C [N _]]]].
  exists chunks. repeat split; assumption.
Defined.

(** ** Rows with too few cells *)

Section ShortRows.
Context {W elem response : Type} {ops : World W elem response} {lib : Library}.

Lemma short_card_empty (card : node) :
  cell_count card < 14 ->
  extract_company_data_from_card card = empty_company_data.
Proof.
  unfold cell_count, llen, extract_company_data_from_card. intros H.
  destruct (Z.ltb_spec (Z.of_nat (List.length
              (find_all_class card "td" cell_class))) 14); [reflexivity|lia].
Qed.

Lemma extract_markup_rows_app (l1 l2 : list node) :
  extract_markup_rows (l1 ++ l2) =
  (extract_markup_rows l1 ++ extract_markup_rows l2)%list.
Proof. unfold extract_markup_rows. apply flat_map_app. Qed.

(** C10.  A row with fewer than fourteen cells of the expected class gives
    the record with all ten fields [None], the name included, and the name
    filter of the scraping loops leaves it out: both the loop over parsed
    rows and the loop over rows of the live page. *)
Theorem short_row_dropped (card : node) :
  cell_count card < 14 ->
  extract_company_data_from_card card = empty_company_data /\
  List.length (extract_company_data_from_card card) = 10%nat /\
  (forall k v, lookup k (extract_company_data_from_card card) = Some v ->
               v = VNone) /\
  lookup "Company Name" (extract_company_data_from_card card) = Some VNone /\
  named (extract_company_data_from_card card) = false /\
  (forall before after,
      extract_markup_rows (before ++ card :: after) =
      extract_markup_rows (before ++ after)) /\
  (forall (row : elem) rest (st st1 : state W) row_html,
      call [] (element_get_attribute row "outerHTML") st = Ok row_html st1 ->
      html_parser row_html = card ->
      extract_rows (row :: rest) st = extract_rows rest st1).
Proof.
  intros H. pose proof (short_card_empty card H) as E. rewrite E.
  split; [reflexivity|]. split; [reflexivity|].
  split.
  { intros k v. unfold empty_company_data. simpl.
    repeat (match goal with
            | |- context [String.eqb ?a ?b] => destruct (String.eqb a b)
            end; [intros Q; inversion Q; reflexivity|]).
    discriminate. }
  split; [reflexivity|]. split; [reflexivity|]. split.
  - intros before after. rewrite !extract_markup_rows_app.
    f_equal. unfold extract_markup_rows. cbn [flat_map].
    rewrite E. reflexivity.
  - intros row rest st st1 row_html Hread Hparse.
    cbn [extract_rows]. unfold bind at 1, try_except, bind at 1.
    rewrite Hread, Hparse, E. cbn.
    unfold bind. destruct (extract_rows rest st1); reflexivity.
Qed.

End ShortRows.

Lemma short_row_dropped_witness :
  cell_count (Example.short_row "Ghost") < 14 /\
  find_class (Example.short_row "Ghost") "a" "cells_link__PfQot"
    = Some (Example.name_link "Ghost") /\
  extract_company_data_from_card (Example.short_row "Ghost")
    = empty_company_data /\
  extract_markup_rows [Example.full_row "Acme"; Example.short_row "Ghost"]
    = extract_markup_rows [Example.full_row "Acme"].
Proof.
  assert (H : cell_count (Example.short_row "Ghost") < 14)
    by (vm_compute; reflexivity).
  destruct (short_row_dropped (W := Example.toy) (Example.short_row "Ghost") H)
    as [E [_ [_ [_ [_ [D _]]]]]].
  split; [exact H|]. split; [vm_compute; reflexivity|].
  split; [exact E|]. exact (D [Example.full_row "Acme"] []).
Defined.

(** ** Strings *)

Lemma startswith_app (p s : string) : startswith (p ++ s) p = true.
Proof.
  induction p as [|c p IH]; simpl; [now destruct s|].
  now rewrite Ascii.eqb_refl.
Qed.

Lemma contains_here (sub s : string) :
  startswith s sub = true -> contains sub s = true.
Proof. intros H. destruct s; simpl in *; rewrite H; reflexivity. Qed.

Lemma contains_app (sub a b : string) : contains sub (a ++ sub ++ b) = true.
Proof.
  induction a as [|c a IH]; simpl.
  - apply contains_here, startswith_app.
  - rewrite IH. apply orb_true_r.
Qed.

Lemma lower_app (a b : string) : lower (a ++ b) = lower a ++ lower b.
Proof.
  unfold lower. induction a as [|c a IH]; simpl; [reflexivity|].
  now rewrite IH.
Qed.

(** ** The blocking detector *)

Section Blocking.
Context {W elem response : Type} {ops : World W elem response}.

Lemma detect_blocking_returns (st : state W) :
  exists b st', detect_blocking st = Ok b st'.
Proof.
  unfold detect_blocking, try_except, bind, ret.
  destruct (call [] driver_page_source st) as [s st1|e st1]; [|eauto].
  destruct (existsb _ _); [eauto|].
  destruct (len s <? 5000); [eauto|].
  destruct (call [] (driver_find_elements (ByClassName row_class)) st1)
    as [rows st2|e st2]; [|eauto].
  destruct (negb (nonempty rows)); eauto.
Qed.

(** C2.  Page content shorter than 5000 characters is classified as
    blocked; so is content with "cloudflare" in any letter case; content of
    at least 5000 characters with none of the indicators and with a row
    element on the page is classified as not blocked. *)
Theorem detect_blocking_verdicts (st st1 : state W) (page_source : string) :
  call [] driver_page_source st = Ok page_source st1 ->
  (len page_source < 5000 -> detect_blocking st = Ok true st1) /\
  (forall a word b,
      page_source = a ++ word ++ b -> lower word = "cloudflare" ->
      detect_blocking st = Ok true st1) /\
  (forall rows st2,
      5000 <= len page_source ->
      (forall indicator, In indicator blocking_indicators ->
                         contains indicator (lower page_source) = false) ->
      call [] (driver_find_elements (ByClassName row_class)) st1 = Ok rows st2 ->
      rows <> [] ->
      detect_blocking st = Ok false st2).
Proof.
  intros Hsrc. unfold detect_blocking, try_except, bind. rewrite Hsrc.
  split; [|split].
  - intros Hlen. destruct (existsb _ _); [reflexivity|].
    destruct (Z.ltb_spec (len page_source) 5000); [reflexivity|lia].
  - intros a word b -> Hword.
    replace (existsb _ blocking_indicators) with true; [reflexivity|].
    symmetry. apply existsb_exists. exists "cloudflare". split.
    + simpl. tauto.
    + rewrite !lower_app, Hword. apply contains_app.
  - intros rows st2 Hlen Hnone Hrows Hne.
    replace (existsb _ blocking_indicators) with false.
    + destruct (Z.ltb_spec (len page_source) 5000); [lia|].
      rewrite Hrows. destruct rows; [congruence|reflexivity].
    + symmetry. apply not_true_is_false. intros Hex.
      apply existsb_exists in Hex. destruct Hex as [ind [Hin Hc]].
      rewrite (Hnone ind Hin) in Hc. discriminate.
Qed.

End Blocking.

Lemma detect_blocking_verdicts_witness :
  detect_blocking
    (Example.scraper default_config true
       {| Example.shown := 1; Example.moves := true; Example.rows_until := 9;
          Example.source := "Attention Required! | Cloudflare";
          Example.browser_up := true; Example.http_up := true;
          Example.disk_up := true |})
  = Ok true
    (Example.scraper default_config true
       {| Example.shown := 1; Example.moves := true; Example.rows_until := 9;
          Example.source := "Attention Required! | Cloudflare";
          Example.browser_up := true; Example.http_up := true;
          Example.disk_up := true |}) /\
  exists st2,
    detect_blocking (Example.scraper default_config true Example.toy0)
    = Ok false st2.
Proof.
  split.
  - match goal with |- detect_blocking ?s = _ =>
      assert (H : call [] driver_page_source s
                  = Ok "Attention Required! | Cloudflare" s) by reflexivity;
      apply (proj1 (detect_blocking_verdicts s s _ H))
    end.
    vm_compute. reflexivity.
  - exists (Example.scraper default_config true Example.toy0).
    assert (H : call [] driver_page_source
                  (Example.scraper default_config true Example.toy0)
                = Ok (Example.filler (Z.to_nat 6000))
                     (Example.scraper default_config true Example.toy0))
      by reflexivity.
    apply (proj2 (proj2 (detect_blocking_verdicts _ _ _ H))
             (Example.rows_of Example.toy0)).
    + vm_compute. discriminate.
    + intros indicator Hin. simpl in Hin.
      repeat (destruct Hin as [<-|Hin]; [vm_compute; reflexivity|]).
      contradiction.
    + reflexivity.
    + discriminate.
Defined.

(** ** The page fetcher *)

Section Fetcher.
Context {W elem response : Type} {ops : World W elem response}.

Lemma http_fetch_returns (url : string) (st : state W) :
  exists r st', http_fetch url st = Ok r st'.
Proof.
  unfold http_fetch, bind, get_config, try_except, ret.
  destruct (call _ _ st) as [resp st1|e st1]; [|eauto].
  destruct (of_exc (raise_for_status resp) st1); eauto.
Qed.

Lemma get_page_content_returns (url : string) (st : state W) :
  exists r st', _get_page_content url st = Ok r st'.
Proof.
  unfold _get_page_content, bind, browser_enabled, try_except, ret.
  destruct (use_selenium (self_config st) && self_driver st).
  - destruct (browser_fetch url st) as [src st1|e st1]; [eauto|].
    apply http_fetch_returns.
  - apply http_fetch_returns.
Qed.

Lemma get_page_content_falls_back (url : string) (st st1 : state W) :
  browser_yields_nothing url st st1 ->
  _get_page_content url st = http_fetch url st1.
Proof.
  unfold _get_page_content, bind, browser_enabled, try_except, ret.
  intros [[-> ->]|[-> [e ->]]]; reflexivity.
Qed.

(** C3.  [_get_page_content] never raises.  When the browser gave no
    content it sends one GET with the configured timeout and checks the
    status; if either raises, the result is [None], with that single
    request in the trace; otherwise the result is the text of the
    response. *)
Theorem get_page_content_http_terminal (url : string) (st : state W) :
  (exists r st', _get_page_content url st = Ok r st') /\
  (forall st1,
      browser_yields_nothing url st st1 ->
      match session_get url (timeout (self_config st1)) (world st1) with
      | Raise e w => _get_page_content url st = Ok None (requested url st1 w)
      | Ok resp w =>
          match raise_for_status resp with
          | Exn e => _get_page_content url st = Ok None (requested url st1 w)
          | Val _ =>
              _get_page_content url st =
              Ok (Some (response_text resp)) (requested url st1 w)
          end
      end).
Proof.
  split; [apply get_page_content_returns|].
  intros st1 H. rewrite (get_page_content_falls_back _ _ _ H).
  unfold http_fetch, bind, get_config, try_except, call, of_exc, ret, requested.
  destruct (session_get url (timeout (self_config st1)) (world st1))
    as [resp w|e w]; [|reflexivity].
  destruct (raise_for_status resp); reflexivity.
Qed.

End Fetcher.

Lemma get_page_content_http_terminal_witness :
  _get_page_content "https://getlatka.com/saas-companies"
    (Example.scraper default_config true
       {| Example.shown := 1; Example.moves := true; Example.rows_until := 9;
          Example.source := ""; Example.browser_up := false;
          Example.http_up := false; Example.disk_up := true |})
  = Ok None
      {| self_config := default_config; self_driver := true;
         world := {| Example.shown := 1; Example.moves := true;
                     Example.rows_until := 9; Example.source := "";
                     Example.browser_up := false; Example.http_up := false;
                     Example.disk_up := true |};
         trace := [DriverGet "https://getlatka.com/saas-companies";
                   HttpGet "https://getlatka.com/saas-companies" 10] |}.
Proof.
  match goal with |- _get_page_content ?u ?s = Ok None ?s' =>
    assert (H : browser_yields_nothing u s
                  {| self_config := default_config; self_driver := true;
                     world := world s; trace := [DriverGet u] |})
      by (right; split; [reflexivity|exists WebDriverException; reflexivity]);
    exact (proj2 (get_page_content_http_terminal u s) _ H)
  end.
Defined.

(** ** The pagination navigator *)

Section Navigator.
Context {W elem response : Type} {ops : World W elem response}.

Lemma content_changed_heads (current previous : list string) :
  content_changed current previous = true <->
  exists c p, hd_error current = Some c /\ hd_error previous = Some p /\ c <> p.
Proof.
  unfold content_changed. split.
  - destruct current as [|c ?], previous as [|p ?]; try discriminate.
    intros H. exists c, p. repeat split.
    intros ->. rewrite String.eqb_refl in H. discriminate.
  - intros [c [p [Hc [Hp N]]]].
    destruct current, previous; simpl in *; try discriminate.
    inversion Hc; inversion Hp; subst.
    destruct (String.eqb_spec c p); [contradiction|reflexivity].
Qed.

Lemma content_changed_same_head (current previous : list string) :
  hd_error current = hd_error previous ->
  content_changed current previous = false.
Proof.
  intros H. destruct (content_changed current previous) eqn:E; [|reflexivity].
  apply content_changed_heads in E. destruct E as [c [p [Hc [Hp N]]]].
  congruence.
Qed.

Lemma handle_potential_overlays_returns (st : state W) :
  exists st', handle_potential_overlays st = Ok tt st'.
Proof.
  unfold handle_potential_overlays, try_except, ret.
  match goal with |- context [match ?m ?s with Ok _ _ => _ | Raise _ _ => _ end] =>
    destruct (m s) as [[] ?|? ?] end; eauto.
Qed.

Lemma simulate_real_browser_behavior_returns (st : state W) :
  exists st', simulate_real_browser_behavior st = Ok tt st'.
Proof.
  unfold simulate_real_browser_behavior, try_except, ret.
  match goal with |- context [match ?m ?s with Ok _ _ => _ | Raise _ _ => _ end] =>
    destruct (m s) as [[] ?|? ?] end; eauto.
Qed.

Lemma approach_returns (st : state W) : exists st', approach st = Ok tt st'.
Proof.
  unfold approach, bind.
  destruct (handle_potential_overlays_returns st) as [s0 ->].
  apply simulate_real_browser_behavior_returns.
Qed.

(** The body of [_navigate_to_next_page] after [approach]. *)
Lemma navigate_unfold (current_page : Z) (st : state W) :
  _navigate_to_next_page current_page st =
  match approach st with
  | Raise _ sA => Ok false sA
  | Ok _ sA =>
      match capture_signature sA with
      | Raise _ sB => Ok false sB
      | Ok previous sB =>
          match click_next sB with
          | Raise _ sC => Ok false sC
          | Ok false sC => Ok false sC
          | Ok true sC =>
              match wait_for_ajax_content_load 20 30 sC with
              | Raise _ sD => Ok false sD
              | Ok false sD => Ok false sD
              | Ok true sD =>
                  match capture_signature sD with
                  | Raise _ sE => Ok false sE
                  | Ok current sE =>
                      Ok (content_changed current previous) sE
                  end
              end
          end
      end
  end.
Proof.
  unfold _navigate_to_next_page, approach, try_except, bind, ret.
  destruct (handle_potential_overlays st) as [[] s0|e s0]; [|reflexivity].
  destruct (simulate_real_browser_behavior s0) as [[] sA|e sA]; [|reflexivity].
  destruct (capture_signature sA) as [previous sB|e sB]; [|reflexivity].
  destruct (click_next sB) as [[|] sC|e sC]; [|reflexivity|reflexivity].
  cbn [negb].
  destruct (wait_for_ajax_content_load 20 30 sC) as [[|] sD|e sD];
    [|reflexivity|reflexivity].
  destruct (capture_signature sD) as [current sE|e sE]; [|reflexivity].
  destruct (content_changed current previous); reflexivity.
Qed.

(** C1.  [_navigate_to_next_page] always returns a boolean.  It returns
    [True] exactly when the click and the settle wait succeeded and the
    first name after navigation differs from the first name before; when
    the two first names are the same it returns [False] although the
    settle wait succeeded. *)
Theorem navigate_requires_changed_content (current_page : Z) (st : state W) :
  (exists b st', _navigate_to_next_page current_page st = Ok b st') /\
  (forall st',
      _navigate_to_next_page current_page st = Ok true st' <->
      exists previous current,
        settled st previous current st' /\
        exists c p, hd_error current = Some c /\ hd_error previous = Some p /\
                    c <> p) /\
  (forall previous current st',
      settled st previous current st' ->
      hd_error current = hd_error previous ->
      _navigate_to_next_page current_page st = Ok false st').
Proof.
  rewrite navigate_unfold. unfold settled.
  destruct (approach_returns st) as [sA HA]. rewrite HA.
  destruct (capture_signature sA) as [previous sB|e sB] eqn:HB.
  2:{ split; [eauto|]. split.
      - intros st'. split; [discriminate|].
        intros [? [? [[? [? [? [? [E1 [E2 _]]]]]] _]]]. congruence.
      - intros ? ? ? [? [? [? [? [E1 [E2 _]]]]]]. congruence. }
  destruct (click_next sB) as [[|] sC|e sC] eqn:HC.
  2,3: (split; [eauto|]; split;
        [ intros st'; split; [discriminate|];
          intros [? [? [[? [? [? [? [E1 [E2 [E3 _]]]]]]] _]]]; congruence
        | intros ? ? ? [? [? [? [? [E1 [E2 [E3 _]]]]]]]; congruence ]).
  destruct (wait_for_ajax_content_load 20 30 sC) as [[|] sD|e sD] eqn:HD.
  2,3: (split; [eauto|]; split;
        [ intros st'; split; [discriminate|];
          intros [? [? [[? [? [? [? [E1 [E2 [E3 [E4 _]]]]]]]] _]]]; congruence
        | intros ? ? ? [? [? [? [? [E1 [E2 [E3 [E4 _]]]]]]]]; congruence ]).
  destruct (capture_signature sD) as [current sE|e sE] eqn:HE.
  2:{ split; [eauto|]. split.
      - intros st'. split; [discriminate|].
        intros [? [? [[? [? [? [? [E1 [E2 [E3 [E4 E5]]]]]]]] _]]]. congruence.
      - intros ? ? ? [? [? [? [? [E1 [E2 [E3 [E4 E5]]]]]]]]. congruence. }
  split; [eauto|]. split.
  - intros st'. split.
    + intros H. injection H as Hc Hs. subst st'.
      exists previous, current. split.
      * exists sA, sB, sC, sD. auto.
      * apply content_changed_heads. assumption.
    + intros [previous' [current' [[a [b [c [d [E1 [E2 [E3 [E4 E5]]]]]]]] Hh]]].
      assert (a = sA) by congruence; subst a.
      assert (b = sB /\ previous' = previous) as [-> ->]
        by (split; congruence).
      assert (c = sC) by congruence; subst c.
      assert (d = sD) by congruence; subst d.
      assert (st' = sE /\ current' = current) as [-> ->]
        by (split; congruence).
      apply content_changed_heads in Hh. rewrite Hh. reflexivity.
  - intros previous' current' st'
      [a [b [c [d [E1 [E2 [E3 [E4 E5]]]]]]]] Hh.
    assert (a = sA) by congruence; subst a.
    assert (b = sB /\ previous' = previous) as [-> ->] by (split; congruence).
    assert (c = sC) by congruence; subst c.
    assert (d = sD) by congruence; subst d.
    assert (st' = sE /\ current' = current) as [-> ->] by (split; congruence).
    rewrite (content_changed_same_head _ _ Hh). reflexivity.
Qed.

End Navigator.

Lemma navigate_requires_changed_content_witness :
  _navigate_to_next_page 1
    (Example.scraper default_config true
       {| Example.shown := 1; Example.moves := false; Example.rows_until := 9;
          Example.source := ""; Example.browser_up := true;
          Example.http_up := true; Example.disk_up := true |})
  = Ok false
    (Example.scraper default_config true
       {| Example.shown := 1; Example.moves := false; Example.rows_until := 9;
          Example.source := ""; Example.browser_up := true;
          Example.http_up := true; Example.disk_up := true |}).
Proof.
  match goal with |- _ ?s = _ =>
    apply (proj2 (proj2 (navigate_requires_changed_content 1 s))
             ["Company 100"; "Company 101"; "Company 102"; "Company 103";
              "Company 104"]
             ["Company 100"; "Company 101"; "Company 102"; "Company 103";
              "Company 104"] s);
    [ exists s, s, s, s; repeat split; vm_compute; reflexivity
    | reflexivity ]
  end.
Defined.

(** ** Traces *)


Section Traces.
Context {W elem response : Type} {ops : World W elem response}.




Variable cfg : config.
Variable P : string -> Prop.












End Traces.



(** ** Ranges of pages *)






Section PageRange.
Context {W elem response : Type} {ops : World W elem response} {lib : Library}.











End PageRange.


(** ** The command line *)

Section CommandLine.
Context {W elem response : Type} {ops : World W elem response} {lib : Library}.
Import Main.


Lemma print_run (text : string) (st : state W) :
  print text st = Ok tt (logged st [Print text]).
Proof. reflexivity. Qed.

Lemma logged_logged (st : state W) (a b : list event) :
  logged (logged st a) b = logged st (a ++ b).
Proof. unfold logged. simpl. now rewrite app_assoc. Qed.

Lemma print_all_run (texts : list string) (st : state W) :
  print_all texts st = Ok tt (logged st (map Print texts)).
Proof.
  revert st. induction texts as [|t ts IH]; intros st; cbn [print_all map].
  - unfold ret, logged. rewrite app_nil_r. now destruct st.
  - unfold bind. rewrite print_run, IH, logged_logged. reflexivity.
Qed.

Lemma usage_error_run (message : string) (st : state W) :
  usage_error message st =
  Ok (Some 1) (logged st (Print (nl ++ message) :: map Print usage_text)).
Proof.
  unfold usage_error, bind, print_usage.
  rewrite print_run, print_all_run, logged_logged. reflexivity.
Qed.



End CommandLine.


(** ** The switch to the requests fallback *)

Section Fallback.
Context {W elem response : Type} {ops : World W elem response} {lib : Library}.


Lemma call_grows {A} (evs : list event) (op : W -> res W A) (st : state W) :
  grows (eq (fetches evs)) st (final (call evs op st)).
Proof.
  unfold call. destruct (op (world st)); simpl; repeat split; exists evs; auto.
Qed.





Lemma time_sleep_quiet (d : duration) (st : state W) :
  negative d = false ->
  exists st', time_sleep d st = Ok tt st' /\ grows (eq []) st st'.
Proof.
  intros N. unfold time_sleep. rewrite N.
  pose proof (call_grows [] (fun w => Ok tt (sleep d w)) st) as G.
  unfold call in *. simpl in *. eauto.
Qed.







End Fallback.



(** A run in the example world: page 1 gives nineteen records in the
    browser, page 2 is blocked, and the result is what the fallback finds
    (nothing, the browser being served the blocked page again). *)
Lemma browser_records_discarded_example :
  let st := Example.scraper default_config true
              {| Example.shown := 1; Example.moves := true;
                 Example.rows_until := 1; Example.source := "Access denied";
                 Example.browser_up := true; Example.http_up := true;
                 Example.disk_up := true |} in
  (exists found st1,
      extract_rows (Example.rows_of (world st)) st = Ok found st1 /\
      List.length found = 19%nat) /\
  (exists st', scrape_companies_list st = Ok [] st' /\
               fetches (trace st') =
               [ "https://getlatka.com/saas-companies";
                 "https://getlatka.com/saas-companies";
                 "https://getlatka.com/saas-companies?page=2";
                 "https://getlatka.com/saas-companies?page=3";
                 "https://getlatka.com/saas-companies?page=4";
                 "https://getlatka.com/saas-companies?page=5" ]).
Proof.
  split.
  - do 2 eexists. split; [vm_compute; reflexivity|reflexivity].
  - eexists. split; [vm_compute; reflexivity|reflexivity].
Qed.

(** ** Enrichment *)

Section Enrichment.
Context {W elem response : Type} {ops : World W elem response} {lib : Library}.

(** Each company of a chunk comes back as it was or merged with the profile
    record extracted from its profile page. *)
Lemma process_company_merges (company : dict) (st : state W) :
  exists d st',
    process_company company st = Ok d st' /\
    (d = company \/
     exists soup, d = merge company (extract_company_profile soup)).
Proof.
  unfold process_company, try_except.
  destruct (is_true (lookup "Company Hyperlink" company)); [|unfold ret; eauto].
  destruct (get_str "Company Hyperlink" company) as [url|];
    [|unfold raise, ret; eauto].
  unfold bind at 1, get_config. unfold bind at 1.
  destruct (time_sleep (Seconds (delay_between_requests (self_config st))) st)
    as [[] s1|e s1]; [|unfold ret; eauto].
  unfold bind at 1.
  destruct (get_page_content_returns url s1) as [c [s2 E2]]. rewrite E2.
  destruct c as [c|]; [destruct (truthy c)|]; unfold ret; eauto.
  do 2 eexists. split; [reflexivity|]. right. eauto.
Qed.

End Enrichment.

(** * Further properties *)

(** ** Decimal numerals: [int(str(n))] *)

Lemma digits_tail_digit (c : ascii) (s : string) (acc : list Z) :
  is_digit c = true ->
  digits_tail (String c s) acc = digits_tail s (digit_val c :: acc).
Proof. intros H. cbn [digits_tail]. now rewrite H. Qed.

Lemma digits_tail_uint (d : Decimal.uint) (acc : list Z) :
  digits_tail (NilEmpty.string_of_uint d) acc = ((rev acc ++ uint_digits d)%list, "").
Proof.
  revert acc. induction d; intros acc; cbn [NilEmpty.string_of_uint uint_digits];
    [cbn; now rewrite app_nil_r|..];
    (rewrite digits_tail_digit by reflexivity;
     rewrite IHd; cbn [rev]; rewrite <- app_assoc; reflexivity).
Qed.

Lemma digits_value_acc (d : Decimal.uint) (acc : positive) :
  fold_left (fun a x => 10 * a + x) (uint_digits d) (Zpos acc) =
  Zpos (Pos.of_uint_acc d acc).
Proof.
  revert acc. induction d; intros acc; cbn [uint_digits fold_left Pos.of_uint_acc];
    [reflexivity|..];
    (rewrite <- IHd; f_equal; lia).
Qed.

Lemma digits_value_uint (d : Decimal.uint) :
  digits_value (uint_digits d) = Z.of_N (Pos.of_uint d).
Proof.
  unfold digits_value.
  induction d; cbn [uint_digits fold_left Pos.of_uint]; [reflexivity|exact IHd|..];
    (cbn [Z.mul Z.add]; rewrite digits_value_acc; reflexivity).
Qed.

Lemma numeral_chars_uint (d : Decimal.uint) :
  all_chars is_digit (NilEmpty.string_of_uint d) = true.
Proof. induction d; cbn [NilEmpty.string_of_uint all_chars]; auto. Qed.

Lemma all_chars_impl (P Q : ascii -> bool) (s : string) :
  (forall c, P c = true -> Q c = true) ->
  all_chars P s = true -> all_chars Q s = true.
Proof.
  intros H. induction s as [|c s IH]; simpl; [reflexivity|].
  intros E. apply andb_true_iff in E. destruct E as [E1 E2].
  now rewrite (H c E1), IH.
Qed.

Lemma numeral_char_facts (c : ascii) :
  numeral_char c = true ->
  is_space c = false /\ upper_char c = c /\ lower_char c = c /\
  Ascii.eqb "K" c = false /\ Ascii.eqb "M" c = false.
Proof.
  destruct c as [[] [] [] [] [] [] [] []]; vm_compute; intros H;
    try discriminate H; repeat split.
Qed.

Lemma lstrip_id (s : string) :
  all_chars (fun c => negb (is_space c)) s = true -> lstrip s = s.
Proof.
  destruct s as [|c s]; simpl; [reflexivity|].
  intros E. apply andb_true_iff in E. destruct E as [E _].
  destruct (is_space c); [discriminate|reflexivity].
Qed.

Lemma rstrip_id (s : string) :
  all_chars (fun c => negb (is_space c)) s = true -> rstrip s = s.
Proof.
  induction s as [|c s IH]; simpl; [reflexivity|].
  intros E. apply andb_true_iff in E. destruct E as [E1 E2].
  rewrite (IH E2). destruct s; [|reflexivity].
  destruct (is_space c); [discriminate|reflexivity].
Qed.

Lemma strip_id (s : string) :
  all_chars (fun c => negb (is_space c)) s = true -> strip s = s.
Proof. intros H. unfold strip. now rewrite lstrip_id, rstrip_id. Qed.

Lemma smap_id (f : ascii -> ascii) (s : string) :
  all_chars (fun c => Ascii.eqb (f c) c) s = true -> smap f s = s.
Proof.
  induction s as [|c s IH]; simpl; [reflexivity|].
  intros E. apply andb_true_iff in E. destruct E as [E1 E2].
  apply Ascii.eqb_eq in E1. now rewrite E1, IH.
Qed.

Lemma contains_char_absent (a : ascii) (s : string) :
  all_chars (fun c => negb (Ascii.eqb a c)) s = true ->
  contains (String a EmptyString) s = false.
Proof.
  induction s as [|c s IH]; simpl; [reflexivity|].
  intros E. apply andb_true_iff in E. destruct E as [E1 E2].
  rewrite (IH E2). destruct (Ascii.eqb a c); [discriminate|reflexivity].
Qed.

Lemma str_of_int_chars (n : Z) : all_chars numeral_char (str_of_int n) = true.
Proof.
  assert (U : forall d, all_chars numeral_char (NilZero.string_of_uint d) = true).
  { intros d. unfold NilZero.string_of_uint.
    destruct d; try reflexivity;
      (eapply all_chars_impl; [|apply numeral_chars_uint];
       intros c H; unfold numeral_char; now rewrite H). }
  unfold str_of_int, NilZero.string_of_int.
  destruct (Z.to_int n); [apply U|]. cbn [all_chars]. now rewrite U.
Qed.

Lemma digitpart_uint (d : Decimal.uint) :
  d <> Decimal.Nil ->
  digitpart (NilZero.string_of_uint d) = Some (uint_digits d, "").
Proof.
  intros N. unfold NilZero.string_of_uint.
  pose proof (digits_tail_uint d []) as T. cbn [rev app] in T.
  destruct d; [contradiction|..];
    (cbn [NilEmpty.string_of_uint] in *;
     rewrite digits_tail_digit in T by reflexivity;
     unfold digitpart; change (is_digit _) with true; cbv iota;
     rewrite T; reflexivity).
Qed.

(** The decimal text of an integer is a numeral with that value. *)
Lemma numeral_value_str_of_int (n : Z) :
  numeral_value (str_of_int n) = Some n.
Proof.
  unfold numeral_value, str_of_int, NilZero.string_of_int.
  pose proof (DecimalZ.of_to n) as R.
  destruct n as [|p|p]; cbn [Z.to_int] in *.
  - reflexivity.
  - pose proof (DecimalPos.Unsigned.to_uint_nonnil p) as N.
    assert (S : sign (NilZero.string_of_uint (Pos.to_uint p))
                = (false, NilZero.string_of_uint (Pos.to_uint p))).
    { unfold NilZero.string_of_uint. destruct (Pos.to_uint p); try contradiction;
        reflexivity. }
    rewrite S, digitpart_uint by assumption.
    rewrite digits_value_uint. cbn [Z.of_int] in R. unfold Z.of_uint in R.
    now rewrite R.
  - pose proof (DecimalPos.Unsigned.to_uint_nonnil p) as N.
    cbn [sign]. change (Ascii.eqb "-" "-") with true. cbv iota.
    rewrite digitpart_uint by assumption.
    rewrite digits_value_uint. cbn [Z.of_int] in R. unfold Z.of_uint in R.
    now rewrite R.
Qed.

Lemma str_of_int_inj (p q : Z) : str_of_int p = str_of_int q -> p = q.
Proof.
  intros H. pose proof (numeral_value_str_of_int p) as E.
  rewrite H, numeral_value_str_of_int in E. congruence.
Qed.

Lemma numeral_char_plain (c : ascii) :
  numeral_char c = true -> is_c_space c = false /\ (code c <? 128)%nat = true.
Proof.
  destruct c as [[] [] [] [] [] [] [] []]; vm_compute; intros H;
    try discriminate H; split; reflexivity.
Qed.

Lemma number_strip_id (s : string) :
  all_chars numeral_char s = true -> number_strip s = s.
Proof.
  intros C. unfold number_strip, number_text.
  assert (A : is_ascii s = true).
  { induction s as [|c s IH]; [reflexivity|].
    cbn [all_chars is_ascii] in *. apply andb_true_iff in C.
    destruct C as [C1 C2].
    now rewrite (proj2 (numeral_char_plain c C1)), IH. }
  rewrite A.
  assert (L : number_lstrip s = s).
  { destruct s as [|c s]; [reflexivity|].
    cbn [all_chars number_lstrip] in *. apply andb_true_iff in C.
    now rewrite (proj1 (numeral_char_plain c (proj1 C))). }
  rewrite L. clear A L.
  induction s as [|c s IH]; [reflexivity|].
  cbn [all_chars number_rstrip] in *. apply andb_true_iff in C.
  destruct C as [C1 C2]. rewrite (IH C2).
  destruct s; [|reflexivity].
  now rewrite (proj1 (numeral_char_plain c C1)).
Qed.

Lemma uint_digits_length (d : Decimal.uint) :
  List.length (uint_digits d) = String.length (NilEmpty.string_of_uint d).
Proof.
  induction d; cbn [uint_digits NilEmpty.string_of_uint List.length String.length];
    congruence.
Qed.

(** What [int()] makes of a numeral. *)
Lemma int_of_str_numeral (s : string) :
  all_chars numeral_char s = true ->
  int_of_str s =
  match sign s with
  | (neg, body) =>
      match digitpart body with
      | Some (ds, EmptyString) =>
          if (int_max_str_digits <? List.length ds)%nat then Exn ValueError
          else Val (if neg then - digits_value ds else digits_value ds)
      | _ => Exn ValueError
      end
  end.
Proof. intros C. unfold int_of_str. now rewrite number_strip_id. Qed.

(** Reading back the decimal text of an integer gives the integer, up to
    the number of digits that [int()] accepts. *)
Lemma int_of_str_of_int (n : Z) :
  (digit_count n <= int_max_str_digits)%nat ->
  int_of_str (str_of_int n) = Val n.
Proof.
  intros B. rewrite int_of_str_numeral by apply str_of_int_chars.
  pose proof (numeral_value_str_of_int n) as V. unfold numeral_value in V.
  destruct (sign (str_of_int n)) as [neg body] eqn:S.
  destruct (digitpart body) as [[ds [|c r]]|] eqn:D; try discriminate V.
  inversion V as [V']. rewrite V'.
  replace (int_max_str_digits <? List.length ds)%nat with false; [reflexivity|].
  symmetry. apply Nat.ltb_ge.
  assert (L : List.length ds = digit_count n); [|now rewrite L].
  unfold digit_count. clear V V' B.
  unfold str_of_int, NilZero.string_of_int in *.
  destruct n as [|p|p]; cbn [Z.to_int Z.abs] in *.
  - inversion S; subst. inversion D. reflexivity.
  - pose proof (DecimalPos.Unsigned.to_uint_nonnil p) as N.
    assert (S' : sign (NilZero.string_of_uint (Pos.to_uint p))
                 = (false, NilZero.string_of_uint (Pos.to_uint p))).
    { unfold NilZero.string_of_uint. destruct (Pos.to_uint p); try contradiction;
        reflexivity. }
    rewrite S' in S. inversion S; subst.
    rewrite digitpart_uint in D by assumption. inversion D.
    rewrite uint_digits_length. unfold NilZero.string_of_uint.
    destruct (Pos.to_uint p); [contradiction|..]; reflexivity.
  - pose proof (DecimalPos.Unsigned.to_uint_nonnil p) as N.
    cbn [sign] in S. change (Ascii.eqb "-" "-") with true in S. cbv iota in S.
    inversion S; subst.
    rewrite digitpart_uint in D by assumption. inversion D.
    rewrite uint_digits_length. unfold NilZero.string_of_uint.
    destruct (Pos.to_uint p); [contradiction|..]; reflexivity.
Qed.

Lemma append_inj_l (a x y : string) : a ++ x = a ++ y -> x = y.
Proof. induction a as [|c a IH]; simpl; intros H; [exact H|]. inversion H; auto. Qed.

Lemma length_append (a b : string) :
  String.length (a ++ b) = (String.length a + String.length b)%nat.
Proof. induction a as [|c a IH]; simpl; [reflexivity|now rewrite IH]. Qed.

Lemma append_grows (a : string) (c : ascii) (x : string) :
  a ++ String c x <> a.
Proof.
  intros H. assert (L : String.length (a ++ String c x) = String.length a)
    by now rewrite H.
  rewrite length_append in L. simpl in L. lia.
Qed.

(** X1.  Result pages with different numbers (from 1 on) have different
    URLs. *)
Theorem page_url_injective (cfg : config) (p q : Z) :
  1 <= p -> 1 <= q -> page_url cfg p = page_url cfg q -> p = q.
Proof.
  intros Hp Hq. unfold page_url.
  destruct (Z.gtb_spec p 1) as [P1|P1], (Z.gtb_spec q 1) as [Q1|Q1]; intros H.
  - apply append_inj_l in H. apply (append_inj_l "?page=") in H.
    now apply str_of_int_inj.
  - exfalso. exact (append_grows _ _ _ H).
  - exfalso. symmetry in H. exact (append_grows _ _ _ H).
  - lia.
Qed.

Lemma page_url_injective_witness :
  page_url default_config 12 = "https://getlatka.com/saas-companies?page=12" /\
  12 = 12.
Proof.
  split; [reflexivity|].
  apply (page_url_injective default_config 12 12); [lia|lia|reflexivity].
Defined.

(** ** Employee counts, continued *)

(** X2.  A count written as a plain decimal integer of no more digits
    than [int()] reads converts to that integer. *)
Theorem convert_employee_count_plain (n : Z) :
  (digit_count n <= int_max_str_digits)%nat ->
  convert_employee_count (str_of_int n) = Val (Some n).
Proof.
  intros B. pose proof (str_of_int_chars n) as C.
  unfold convert_employee_count. cbv zeta.
  assert (S : strip (str_of_int n) = str_of_int n).
  { apply strip_id. eapply all_chars_impl; [|exact C].
    intros c H. now rewrite (proj1 (numeral_char_facts c H)). }
  assert (U : upper (str_of_int n) = str_of_int n).
  { apply smap_id. eapply all_chars_impl; [|exact C].
    intros c H. destruct (numeral_char_facts c H) as [_ [-> _]].
    apply Ascii.eqb_refl. }
  rewrite S, U.
  rewrite (contains_char_absent "K"), (contains_char_absent "M").
  - rewrite int_of_str_of_int by assumption. reflexivity.
  - eapply all_chars_impl; [|exact C]. intros c H.
    destruct (numeral_char_facts c H) as [_ [_ [_ [_ ->]]]]. reflexivity.
  - eapply all_chars_impl; [|exact C]. intros c H.
    destruct (numeral_char_facts c H) as [_ [_ [_ [-> _]]]]. reflexivity.
Qed.

Lemma convert_employee_count_plain_witness :
  convert_employee_count "-1250" = Val (Some (-1250)).
Proof.
  apply (convert_employee_count_plain (-1250)).
  unfold int_max_str_digits. vm_compute. lia.
Defined.

Lemma case_char_facts (c : ascii) :
  is_space (lower_char c) = is_space c /\
  is_space (upper_char c) = is_space c /\
  upper_char (lower_char c) = upper_char c /\
  upper_char (upper_char c) = upper_char c.
Proof. destruct c as [[] [] [] [] [] [] [] []]; vm_compute; auto. Qed.

Lemma lstrip_smap (f : ascii -> ascii) (s : string) :
  (forall c, is_space (f c) = is_space c) ->
  lstrip (smap f s) = smap f (lstrip s).
Proof.
  intros H. induction s as [|c s IH]; simpl; [reflexivity|].
  rewrite H. destruct (is_space c); [exact IH|reflexivity].
Qed.

Lemma rstrip_smap (f : ascii -> ascii) (s : string) :
  (forall c, is_space (f c) = is_space c) ->
  rstrip (smap f s) = smap f (rstrip s).
Proof.
  intros H. induction s as [|c s IH]; simpl; [reflexivity|].
  rewrite IH, H. destruct (rstrip s); simpl; [|reflexivity].
  destruct (is_space c); reflexivity.
Qed.

Lemma strip_smap (f : ascii -> ascii) (s : string) :
  (forall c, is_space (f c) = is_space c) ->
  strip (smap f s) = smap f (strip s).
Proof. intros H. unfold strip. now rewrite lstrip_smap, rstrip_smap. Qed.

Lemma smap_smap (f g : ascii -> ascii) (h : ascii -> ascii) (s : string) :
  (forall c, f (g c) = h c) -> smap f (smap g s) = smap h s.
Proof.
  intros H. induction s as [|c s IH]; simpl; [reflexivity|]. now rewrite H, IH.
Qed.

Lemma lstrip_idem (s : string) : lstrip (lstrip s) = lstrip s.
Proof.
  induction s as [|c s IH]; simpl; [reflexivity|].
  destruct (is_space c) eqn:E; [exact IH|]. simpl. now rewrite E.
Qed.

Lemma rstrip_idem (s : string) : rstrip (rstrip s) = rstrip s.
Proof.
  induction s as [|c s IH]; simpl; [reflexivity|].
  destruct (rstrip s) as [|c0 r] eqn:R.
  - destruct (is_space c) eqn:E; simpl; [reflexivity|now rewrite E].
  - cbn [rstrip]. cbn [rstrip] in IH. rewrite IH. reflexivity.
Qed.

Lemma lstrip_rstrip (t : string) : lstrip t = t -> lstrip (rstrip t) = rstrip t.
Proof.
  destruct t as [|c t]; simpl; [reflexivity|].
  destruct (is_space c) eqn:E.
  - intros H. exfalso.
    assert (L : (String.length (lstrip t) <= String.length t)%nat).
    { clear. induction t as [|a t IH]; simpl; [lia|].
      destruct (is_space a); simpl; lia. }
    rewrite H in L. simpl in L. lia.
  - intros _. destruct (rstrip t); simpl; now rewrite E.
Qed.

Lemma strip_idem (s : string) : strip (strip s) = strip s.
Proof.
  unfold strip. rewrite (lstrip_rstrip (lstrip s) (lstrip_idem s)).
  apply rstrip_idem.
Qed.

(** X3.  On ASCII text [convert_employee_count] ignores the letter case of
    its argument and white space around it. *)
Theorem convert_employee_count_normalises (s : string) :
  is_ascii s = true ->
  convert_employee_count (upper s) = convert_employee_count s /\
  convert_employee_count (lower s) = convert_employee_count s /\
  convert_employee_count (strip s) = convert_employee_count s.
Proof.
  assert (U : upper (strip (upper s)) = upper (strip s)).
  { unfold upper. rewrite strip_smap by apply case_char_facts.
    apply smap_smap. apply case_char_facts. }
  assert (L : upper (strip (lower s)) = upper (strip s)).
  { unfold upper, lower. rewrite strip_smap by apply case_char_facts.
    apply smap_smap. apply case_char_facts. }
  intros _. unfold convert_employee_count. cbv zeta.
  rewrite U, L, strip_idem. repeat split.
Qed.

Lemma convert_employee_count_normalises_witness :
  convert_employee_count (upper " 1.4k ") = convert_employee_count " 1.4k " /\
  convert_employee_count (lower " 1.4k ") = convert_employee_count " 1.4k " /\
  convert_employee_count (strip " 1.4k ") = convert_employee_count " 1.4k ".
Proof. apply (convert_employee_count_normalises " 1.4k "). reflexivity. Defined.

(** X4.  The only exception that leaves [convert_employee_count] is
    [OverflowError], and only on a text with a K or M suffix letter; plain
    numbers and unreadable text never raise. *)
Theorem convert_employee_count_escapes (s : string) (e : exn) :
  convert_employee_count s = Exn e ->
  e = OverflowError /\
  (contains "K" (upper (strip s)) = true \/
   contains "M" (upper (strip s)) = true).
Proof.
  intros H. split; [exact (convert_employee_count_raises s e H)|].
  revert H. unfold convert_employee_count, exc_catch, exc_bind. cbv zeta.
  destruct (contains "K" (upper (strip s))); [auto|].
  destruct (contains "M" (upper (strip s))); [auto|].
  destruct (int_of_str (upper (strip s))) as [n|e0] eqn:I; [discriminate|].
  rewrite (int_of_str_raises _ _ I). simpl. discriminate.
Qed.

Lemma convert_employee_count_escapes_witness :
  OverflowError = OverflowError /\
  (contains "K" (upper (strip " 1e400k ")) = true \/
   contains "M" (upper (strip " 1e400k ")) = true).
Proof.
  apply (convert_employee_count_escapes " 1e400k " OverflowError).
  vm_compute. reflexivity.
Defined.

(** ** Records, continued *)

Lemma has_key_in (k : string) (d : dict) :
  has_key k d = true <-> In k (keys d).
Proof.
  unfold has_key. rewrite existsb_exists. split.
  - intros [x [Hin E]]. apply String.eqb_eq in E. now subst.
  - intros H. exists k. split; [assumption|apply String.eqb_refl].
Qed.

Lemma keys_set (k : string) (v : value) (d : dict) :
  keys (set k v d) = if has_key k d then keys d else (keys d ++ [k])%list.
Proof.
  unfold has_key, keys. induction d as [|[k0 v0] d IH]; simpl; [reflexivity|].
  destruct (String.eqb k k0); simpl; [reflexivity|].
  rewrite IH. destruct (existsb _ _); reflexivity.
Qed.

Lemma new_keys_ext (a a' b : dict) :
  (forall k, In k (keys b) -> has_key k a' = has_key k a) ->
  new_keys a' b = new_keys a b.
Proof.
  intros H. unfold new_keys. apply filter_ext_in. intros k Hin.
  now rewrite H.
Qed.

Lemma merge_keys (a b : dict) :
  NoDup (keys b) -> keys (merge a b) = (keys a ++ new_keys a b)%list.
Proof.
  unfold merge. revert a.
  induction b as [|[k v] b IH]; intros a D; simpl.
  - unfold new_keys. simpl. now rewrite app_nil_r.
  - inversion D as [|? ? Hnotin D']; subst. rewrite (IH _ D').
    unfold new_keys at 2. cbn [keys map fst filter].
    rewrite keys_set. fold (keys b).
    destruct (has_key k a) eqn:E; cbn [negb].
    + f_equal. apply new_keys_ext. intros k' Hin.
      apply eq_true_iff_eq. rewrite !has_key_in, keys_set, E. tauto.
    + rewrite <- app_assoc. cbn [app]. do 2 f_equal.
      apply new_keys_ext. intros k' Hin.
      apply eq_true_iff_eq. rewrite !has_key_in, keys_set, E, in_app_iff.
      simpl. split; [|tauto]. intros [H|[<-|[]]]; [assumption|].
      contradiction.
Qed.

(** X5.  The merged record lists the fields of the list record first, in
    their order, then the fields only the profile has, in the profile's
    order; no field occurs twice. *)
Theorem merge_field_order (company profile_data : dict) :
  NoDup (keys company) -> NoDup (keys profile_data) ->
  keys (merge company profile_data) =
    (keys company ++ new_keys company profile_data)%list /\
  NoDup (keys (merge company profile_data)).
Proof.
  intros Da Db. split; [now apply merge_keys|].
  now apply nodup_keys_merge.
Qed.

Lemma merge_field_order_witness :
  keys (merge [("Company Name", VStr "Acme"); ("Revenue", VStr "$1M")]
              [("employee_count", VInt 12); ("Revenue", VStr "$2M");
               ("description", VNone)])
  = ["Company Name"; "Revenue"; "employee_count"; "description"].
Proof.
  assert (Da : NoDup (keys [("Company Name", VStr "Acme");
                            ("Revenue", VStr "$1M")]))
    by (repeat constructor; simpl; intuition discriminate).
  assert (Db : NoDup (keys [("employee_count", VInt 12);
                            ("Revenue", VStr "$2M"); ("description", VNone)]))
    by (repeat constructor; simpl; intuition discriminate).
  rewrite (proj1 (merge_field_order _ _ Da Db)). reflexivity.
Defined.

Lemma keys_set_present (k : string) (v : value) (d : dict) (ks : list string) :
  keys d = ks -> In k ks -> keys (set k v d) = ks.
Proof.
  intros E Hin. rewrite keys_set.
  replace (has_key k d) with true; [assumption|].
  symmetry. apply has_key_in. now rewrite E.
Qed.

Section Schema.
Context {lib : Library}.

Lemma unlocked_text_keys (key : string) (c : node) (d : dict) (ks : list string) :
  keys d = ks -> In key ks -> keys (unlocked_text key c d) = ks.
Proof.
  intros E Hin. unfold unlocked_text.
  destruct (find_class c "button" "btn_lock"); [assumption|].
  destruct (truthy _); [|assumption]. now apply keys_set_present.
Qed.

Lemma link_text_keys (key : string) (link : option node) (d : dict)
  (ks : list string) :
  keys d = ks -> In key ks -> keys (link_text key link d) = ks.
Proof.
  intros E Hin. unfold link_text. destruct link; [|assumption].
  destruct (truthy _); [|assumption]. now apply keys_set_present.
Qed.

Lemma name_cell_data_keys (name_cell : node) (d : dict) :
  keys d = keys empty_company_data ->
  keys (name_cell_data name_cell d) = keys empty_company_data.
Proof.
  intros E. unfold name_cell_data.
  repeat match goal with
         | |- keys (match ?x with _ => _ end) = _ => destruct x
         | |- keys (if ?b then _ else _) = _ => destruct b
         | |- keys (set _ _ _) = _ =>
             apply keys_set_present; [|simpl; tauto]
         end; assumption.
Qed.

(** X6.  Whatever the markup of a row, its record has the same ten fields
    in the same order. *)
Theorem extract_company_data_fields (card_element : node) :
  keys (extract_company_data_from_card card_element) =
  [ "Company Name"; "Company Linkedin Url"; "Company Hyperlink";
    "Company Website URL"; "Revenue"; "Funding"; "Growth"; "Founder Name";
    "Location"; "Industry" ].
Proof.
  change (keys (extract_company_data_from_card card_element)
          = keys empty_company_data).
  unfold extract_company_data_from_card. cbv zeta.
  repeat match goal with
         | |- keys (if ?b then _ else _) = _ => destruct b
         | |- keys (link_text _ _ _) = _ =>
             apply link_text_keys; [|simpl; tauto]
         | |- keys (unlocked_text _ _ _) = _ =>
             apply unlocked_text_keys; [|simpl; tauto]
         | |- keys (name_cell_data _ _) = _ => apply name_cell_data_keys
         end; reflexivity.
Qed.

Lemma indicator_data_keys (indicator : node) (d : dict) (k : string) :
  In k (keys (indicator_data indicator d)) ->
  In k (keys d) \/ In k profile_keys.
Proof.
  unfold indicator_data.
  repeat match goal with
         | |- In _ (keys (match ?x with _ => _ end)) -> _ => destruct x
         | |- In _ (keys (if ?b then _ else _)) -> _ => destruct b
         end; auto;
    (intros H; apply in_keys_set in H; destruct H as [->|H]; [right|left];
     [simpl; tauto|assumption]).
Qed.

Lemma profile_keys_allowed (soup : node) (k : string) :
  In k (keys (extract_company_profile soup)) -> In k profile_keys.
Proof.
  revert k.
  unfold extract_company_profile. cbv zeta.
  set (p1 := match find_class soup "p" "p-text p-text_details" with
             | Some _ => _ | None => _ end).
  assert (K1 : forall k, In k (keys p1) -> In k profile_keys).
  { subst p1. intros k. destruct (find_class soup "p" _).
    - intros H. apply in_keys_set in H. destruct H as [->|H]; simpl in *; tauto.
    - simpl. tauto. }
  set (p2 := match find_id soup "section" "details" with
             | Some _ => _ | None => _ end).
  assert (K2 : forall k, In k (keys p2) -> In k profile_keys).
  { subst p2. destruct (find_id soup "section" "details"); auto.
    destruct (find_class n "div" "indicators"); auto.
    generalize (find_all_class n0 "div" "indicators__i").
    intros l. revert K1. generalize p1.
    induction l as [|i l IH]; cbn [fold_left]; auto.
    intros d Kd. apply IH. intros k H.
    destruct (indicator_data_keys _ _ _ H); auto. }
  intros k. destruct (select_one soup team_size_selector); auto.
  destruct (convert_employee_count _) as [[n0|]|]; auto;
    (intros H; apply in_keys_set in H; destruct H as [->|H];
     [simpl; tauto|auto]).
Qed.

Lemma profile_lacks_list_fields (soup : node) (k : string) :
  In k list_only_keys -> lookup k (extract_company_profile soup) = None.
Proof.
  intros Hin. apply lookup_none_keys. intros H.
  apply profile_keys_allowed in H. simpl in Hin, H.
  repeat (destruct Hin as [<-|Hin];
          [repeat (destruct H as [H|H]; [discriminate H|]); contradiction|]).
  contradiction.
Qed.

(** X7.  A profile record always has the six profile fields, in their
    order, and beyond them only [Revenue], [Growth] or [Funding]; it has
    none of the fields that only the list page provides. *)
Theorem extract_company_profile_fields (soup : node) :
  firstn 6 (keys (extract_company_profile soup)) =
    [ "employee_count"; "ceo_name"; "founded_year"; "pricing_info";
      "top_products"; "description" ] /\
  (forall k, In k (keys (extract_company_profile soup)) -> In k profile_keys) /\
  (forall k, In k list_only_keys ->
             lookup k (extract_company_profile soup) = None) /\
  NoDup (keys (extract_company_profile soup)).
Proof.
  assert (F : forall d (l : list node),
             firstn 6 (keys d) = keys empty_profile_data ->
             firstn 6 (keys (fold_left (fun d i => indicator_data i d) l d))
             = keys empty_profile_data).
  { intros d l. revert d. induction l as [|i l IH]; cbn [fold_left]; auto.
    intros d H. apply IH. unfold indicator_data.
    repeat match goal with
           | |- firstn 6 (keys (match ?x with _ => _ end)) = _ => destruct x
           | |- firstn 6 (keys (if ?b then _ else _)) = _ => destruct b
           end; auto;
      (rewrite keys_set; destruct (has_key _ d); [assumption|];
       rewrite firstn_app;
       assert (L : List.length (firstn 6 (keys d)) = 6%nat)
         by (rewrite H; reflexivity);
       rewrite length_firstn in L;
       replace (6 - List.length (keys d))%nat with O by lia;
       simpl; now rewrite app_nil_r). }
  split; [|split; [apply profile_keys_allowed|split]].
  - unfold extract_company_profile. cbv zeta.
    assert (S6 : forall k v d,
               firstn 6 (keys d) = keys empty_profile_data -> In k (keys empty_profile_data) ->
               firstn 6 (keys (set k v d)) = keys empty_profile_data).
    { intros k v d H Hin. rewrite keys_set.
      replace (has_key k d) with true; [assumption|].
      symmetry. apply has_key_in. rewrite <- (firstn_skipn 6 (keys d)), H.
      apply in_or_app. now left. }
    repeat match goal with
           | |- firstn 6 (keys (match ?x with _ => _ end)) = _ => destruct x
           | |- firstn 6 (keys (set _ _ _)) = _ =>
               apply S6; [|simpl; tauto]
           | |- firstn 6 (keys (fold_left _ _ _)) = _ => apply F
           end; reflexivity.
  - apply profile_lacks_list_fields.
  - apply extract_company_profile_keys.
Qed.

End Schema.

(** ** Chunks and the worker pool *)

Lemma range_up_bounds (c stop : Z) (fuel : nat) (i x : Z) :
  0 < c -> In x (range_up fuel i stop c) -> i <= x < stop.
Proof.
  intros Hc. revert i. induction fuel as [|f IH]; intros i; cbn [range_up].
  - contradiction.
  - destruct (Z.ltb_spec i stop); [|contradiction].
    intros [<-|H']; [lia|]. specialize (IH _ H'). lia.
Qed.

Lemma slice_length {A} (l : list A) (i c : Z) :
  0 <= i < llen l -> 0 < c ->
  llen (slice l i (i + c)) = Z.min (i + c) (llen l) - i.
Proof.
  intros Hi Hc. rewrite slice_inside by assumption.
  unfold llen in *. rewrite length_firstn, length_skipn. lia.
Qed.

(** X8.  With a positive chunk size every chunk holds at least one record
    and at most [chunk_size]. *)
Theorem company_chunks_sizes (companies_list : list dict) (chunk_size : Z)
  (chunks : list (list dict)) :
  0 < chunk_size ->
  company_chunks companies_list chunk_size = Val chunks ->
  Forall (fun chunk => 1 <= llen chunk <= chunk_size) chunks.
Proof.
  intros Hc. unfold company_chunks, range3, exc_bind.
  destruct (Z.eqb_spec chunk_size 0); [lia|].
  destruct (Z.gtb_spec chunk_size 0); [|lia].
  intros E. inversion E; subst. apply Forall_forall. intros chunk Hin.
  apply in_map_iff in Hin. destruct Hin as [i [<- Hi]].
  apply range_up_bounds in Hi; [|assumption].
  rewrite slice_length by lia. lia.
Qed.

Lemma company_chunks_sizes_witness :
  Forall (fun chunk => 1 <= llen chunk <= 2)
         [ [[("Company Name", VStr "a")]; [("Company Name", VStr "b")]];
           [[("Company Name", VStr "c")]] ].
Proof.
  apply (company_chunks_sizes
           [[("Company Name", VStr "a")]; [("Company Name", VStr "b")];
            [("Company Name", VStr "c")]] 2); [lia|reflexivity].
Defined.

Section PoolEdges.
Context {W elem response : Type} {ops : World W elem response} {lib : Library}.

(** X9.  Without a browser, enrichment of a non-empty list with chunk size
    zero raises [ValueError]; with a negative chunk size it returns no
    record at all (given a positive pool size). *)
Theorem scrape_all_company_profiles_bad_chunk_size
  (companies_list : list dict) (st : state W) :
  companies_list <> [] ->
  use_selenium (self_config st) && self_driver st = false ->
  (chunk_size (self_config st) = 0 ->
   scrape_all_company_profiles companies_list st = Raise ValueError st) /\
  (chunk_size (self_config st) < 0 -> 0 < max_workers (self_config st) ->
   scrape_all_company_profiles companies_list st = Ok [] st).
Proof.
  intros N B.
  assert (G : forall order acc (s : state W),
             gather [] order acc s = Ok acc s).
  { induction order as [|i order IH]; intros acc s; cbn [gather];
      [reflexivity|].
    unfold bind. destruct i; cbn [nth_error]; unfold ret;
      rewrite app_nil_r; apply IH. }
  unfold scrape_all_company_profiles.
  destruct companies_list as [|c0 l]; [congruence|]. cbn [nonempty negb].
  unfold bind, browser_enabled, get_config, of_exc, company_chunks, range3,
    exc_bind, observe, raise, ret.
  rewrite B. split.
  - intros ->. reflexivity.
  - intros Hc Hw.
    destruct (Z.eqb_spec (chunk_size (self_config st)) 0); [lia|].
    destruct (Z.gtb_spec (chunk_size (self_config st)) 0); [lia|].
    replace (Z.to_nat (0 - llen (c0 :: l))) with O by (unfold llen; lia).
    cbn [range_down map].
    destruct (Z.leb_spec (max_workers (self_config st)) 0); [lia|].
    apply G.
Qed.

End PoolEdges.

Lemma scrape_all_company_profiles_bad_chunk_size_witness :
  scrape_all_company_profiles [[("Company Name", VStr "a")]]
    (Example.scraper
       {| base_url := "u"; pages_to_scrape := 1; delay_between_requests := 0;
          timeout := 1; output_dir := "o"; use_selenium := false;
          headless := true; max_workers := 4; chunk_size := -1 |}
       false Example.toy0)
  = Ok []
    (Example.scraper
       {| base_url := "u"; pages_to_scrape := 1; delay_between_requests := 0;
          timeout := 1; output_dir := "o"; use_selenium := false;
          headless := true; max_workers := 4; chunk_size := -1 |}
       false Example.toy0).
Proof.
  match goal with |- _ ?l ?s = _ =>
    apply (proj2 (scrape_all_company_profiles_bad_chunk_size l s
                    ltac:(discriminate) eq_refl)); simpl; lia
  end.
Defined.

(** ** Events of a run *)

Section Events.
Context {W elem response : Type} {ops : World W elem response}.

Lemma steps_refl (P : event -> Prop) (st : state W) : steps P st st.
Proof. repeat split. exists []. split; [now rewrite app_nil_r|constructor]. Qed.

Lemma steps_trans (P : event -> Prop) (a b c : state W) :
  steps P a b -> steps P b c -> steps P a c.
Proof.
  intros [C1 [D1 [e1 [T1 F1]]]] [C2 [D2 [e2 [T2 F2]]]].
  split; [congruence|]. split; [congruence|].
  exists (e1 ++ e2)%list. split.
  - rewrite T2, T1. now rewrite app_assoc.
  - apply Forall_app. auto.
Qed.

Lemma steps_weaken (P Q : event -> Prop) (a b : state W) :
  (forall ev, P ev -> Q ev) -> steps P a b -> steps Q a b.
Proof.
  intros H [C [D [e [T F]]]]. repeat split; auto.
  exists e. split; auto. eapply Forall_impl; eauto.
Qed.

Lemma steps_quiet (a b : state W) : steps no_event a b <-> quiet a b.
Proof.
  split.
  - intros [C [D [e [T F]]]]. repeat split; auto.
    destruct e as [|ev e]; [now rewrite app_nil_r in T|].
    inversion F as [|? ? X]. destruct X.
  - intros [C [D T]]. repeat split; auto. exists [].
    split; [now rewrite app_nil_r|constructor].
Qed.

Variable cfg : config.
Variable P : event -> Prop.

Lemma eo_ret {A} (a : A) : emits_only (W := W) cfg P (ret a).
Proof. intros st _. apply steps_refl. Qed.

Lemma eo_raise {A} (e : exn) : emits_only (W := W) cfg P (raise (A := A) e).
Proof. intros st _. apply steps_refl. Qed.

Lemma eo_of_exc {A} (m : exc A) : emits_only (W := W) cfg P (of_exc m).
Proof. intros st _. unfold of_exc. destruct m; apply steps_refl. Qed.

Lemma eo_observe {A} (f : W -> A) : emits_only (W := W) cfg P (observe f).
Proof. intros st _. apply steps_refl. Qed.

Lemma eo_call {A} (evs : list event) (op : W -> res W A) :
  Forall P evs -> emits_only (W := W) cfg P (call evs op).
Proof.
  intros H st _. unfold call.
  destruct (op (world st)); simpl; repeat split; exists evs; auto.
Qed.

Lemma eo_time_sleep (d : duration) : emits_only (W := W) cfg P (time_sleep d).
Proof.
  unfold time_sleep. destruct (negative d); [apply eo_raise|].
  apply eo_call. constructor.
Qed.

Lemma eo_bind {A B} (m : M W A) (k : A -> M W B) :
  emits_only cfg P m -> (forall a, emits_only cfg P (k a)) ->
  emits_only cfg P (bind m k).
Proof.
  intros Hm Hk st Hc. unfold bind. specialize (Hm st Hc).
  destruct (m st) as [a st1|e st1]; simpl in *; [|assumption].
  eapply steps_trans; [eassumption|]. apply Hk.
  destruct Hm as [C _]. congruence.
Qed.

Lemma eo_get_config {B} (k : config -> M W B) :
  emits_only cfg P (k cfg) -> emits_only cfg P (bind get_config k).
Proof.
  intros Hk st Hc. unfold bind, get_config. rewrite Hc. now apply Hk.
Qed.

Lemma eo_browser_enabled {B} (k : bool -> M W B) :
  (forall b, emits_only cfg P (k b)) ->
  emits_only cfg P (bind browser_enabled k).
Proof. intros Hk st Hc. unfold bind, browser_enabled. now apply Hk. Qed.

Lemma eo_try_except {A} (m : M W A) (h : exn -> M W A) :
  emits_only cfg P m -> (forall e, emits_only cfg P (h e)) ->
  emits_only cfg P (try_except m h).
Proof.
  intros Hm Hh st Hc. unfold try_except. specialize (Hm st Hc).
  destruct (m st) as [a st1|e st1]; simpl in *; [assumption|].
  eapply steps_trans; [eassumption|]. apply Hh.
  destruct Hm as [C _]. congruence.
Qed.

Lemma eo_try_except_only {A} (cls : exn) (m h : M W A) :
  emits_only cfg P m -> emits_only cfg P h ->
  emits_only cfg P (try_except_only cls m h).
Proof.
  intros Hm Hh st Hc. unfold try_except_only. specialize (Hm st Hc).
  destruct (m st) as [a st1|e st1]; simpl in *; [assumption|].
  destruct (exn_eqb e cls); [|assumption].
  eapply steps_trans; [eassumption|]. apply Hh.
  destruct Hm as [C _]. congruence.
Qed.

End Events.

(** Breaks a monadic term down along its binds and handlers. *)
Ltac eo_step :=
  match goal with
  | |- emits_only _ _ (bind get_config _) => apply eo_get_config
  | |- emits_only _ _ (bind browser_enabled _) =>
      apply eo_browser_enabled; intros ?
  | |- emits_only _ _ (bind _ _) => apply eo_bind; [|intros ?]
  | |- emits_only _ _ (try_except _ _) => apply eo_try_except; [|intros ?]
  | |- emits_only _ _ (try_except_only _ _ _) => apply eo_try_except_only
  | |- emits_only _ _ (ret _) => apply eo_ret
  | |- emits_only _ _ (raise _) => apply eo_raise
  | |- emits_only _ _ (of_exc _) => apply eo_of_exc
  | |- emits_only _ _ (observe _) => apply eo_observe
  | |- emits_only _ _ (time_sleep _) => apply eo_time_sleep
  | |- emits_only _ _ (call [] _) => apply eo_call; constructor
  | |- emits_only _ _ (if ?b then _ else _) => destruct b
  | |- emits_only _ _ (match ?x with _ => _ end) => destruct x
  end.

Ltac eo := repeat eo_step.

(** ** Cosmetic steps and navigation *)

Section Cosmetics.
Context {W elem response : Type} {ops : World W elem response}.

Lemma times_quiet (cfg : config) (n : nat) (m : M W unit) :
  emits_only cfg no_event m -> emits_only cfg no_event (times n m).
Proof. intros H. induction n; cbn [times]; eo; assumption. Qed.

Lemma simulate_quiet (cfg : config) :
  emits_only (W := W) cfg no_event simulate_real_browser_behavior.
Proof.
  unfold simulate_real_browser_behavior.
  apply eo_try_except; [|intros e; apply eo_ret].
  apply eo_bind; [eo|]. intros k.
  apply eo_bind; [apply times_quiet; eo|]. intros _. eo.
Qed.

Lemma close_overlays_quiet (cfg : config) (selectors : list string) :
  emits_only (W := W) cfg no_event (close_overlays selectors).
Proof.
  induction selectors as [|s rest IH]; cbn [close_overlays]; eo. exact IH.
Qed.

Lemma overlays_quiet (cfg : config) :
  emits_only (W := W) cfg no_event handle_potential_overlays.
Proof.
  unfold handle_potential_overlays.
  apply eo_try_except; [|intros e; apply eo_ret].
  apply eo_bind; [apply close_overlays_quiet|]. intros _. eo.
Qed.

(** X10.  The overlay and behaviour-simulation steps are best effort: they
    always return normally, whatever the driver raises, request no page
    and write no file. *)
Theorem cosmetic_steps_harmless (st : state W) :
  (exists st', handle_potential_overlays st = Ok tt st' /\ quiet st st') /\
  (exists st', simulate_real_browser_behavior st = Ok tt st' /\ quiet st st').
Proof.
  split.
  - destruct (handle_potential_overlays_returns st) as [st' E].
    exists st'. split; [exact E|]. apply steps_quiet.
    pose proof (overlays_quiet (self_config st) st eq_refl) as Q.
    now rewrite E in Q.
  - destruct (simulate_real_browser_behavior_returns st) as [st' E].
    exists st'. split; [exact E|]. apply steps_quiet.
    pose proof (simulate_quiet (self_config st) st eq_refl) as Q.
    now rewrite E in Q.
Qed.

Lemma ajax_poll_quiet (cfg : config) (n : nat) (expected last : Z) :
  emits_only (W := W) cfg no_event (ajax_poll n expected last).
Proof.
  revert last. induction n as [|n IH]; intros last; cbn [ajax_poll].
  - apply eo_ret.
  - apply eo_bind.
    + apply eo_try_except; [|intros e; eo].
      apply eo_bind; [eo|]. intros rows.
      destruct (_ && _); [apply eo_ret|].
      apply eo_bind; [apply simulate_quiet|]. intros _. eo.
    + intros [b c]. cbn [fst snd]. destruct b; [apply eo_ret|apply IH].
Qed.

Lemma wait_for_ajax_quiet (cfg : config) (expected timeout : Z) :
  emits_only (W := W) cfg no_event (wait_for_ajax_content_load expected timeout).
Proof.
  unfold wait_for_ajax_content_load. apply eo_bind; [apply eo_observe|].
  intros n. apply ajax_poll_quiet.
Qed.

Lemma company_names_quiet (cfg : config) (rows : list elem) :
  emits_only (W := W) cfg no_event (company_names rows).
Proof. induction rows as [|r rest IH]; cbn [company_names]; eo. exact IH. Qed.

Lemma navigate_quiet (cfg : config) (current_page : Z) :
  emits_only (W := W) cfg no_event (_navigate_to_next_page current_page).
Proof.
  unfold _navigate_to_next_page.
  apply eo_try_except; [|intros e; apply eo_ret].
  apply eo_bind; [apply overlays_quiet|]. intros _.
  apply eo_bind; [apply simulate_quiet|]. intros _.
  apply eo_bind.
  { unfold capture_signature. apply eo_bind; [eo|].
    intros rows. apply company_names_quiet. }
  intros previous. apply eo_bind; [unfold click_next; eo|].
  intros clicked. destruct (negb clicked); [apply eo_ret|].
  apply eo_bind; [apply wait_for_ajax_quiet|]. intros loaded.
  destruct loaded; [|apply eo_ret].
  apply eo_bind.
  { unfold capture_signature. apply eo_bind; [eo|].
    intros rows. apply company_names_quiet. }
  intros current. eo.
Qed.

(** X11.  Moving to the next page goes through the page itself: the
    navigator loads no URL, sends no HTTP request, writes no file and
    leaves the scraper object as it is. *)
Theorem navigate_loads_no_url (current_page : Z) (st : state W) :
  exists b st',
    _navigate_to_next_page current_page st = Ok b st' /\ quiet st st'.
Proof.
  pose proof (navigate_quiet (self_config st) current_page st eq_refl) as Q.
  rewrite navigate_unfold in *.
  repeat match goal with
         | |- context [match ?m ?s with Ok _ _ => _ | Raise _ _ => _ end] =>
             destruct (m s) as [[] ?|? ?]
         | |- context [match ?m ?s with Ok _ _ => _ | Raise _ _ => _ end] =>
             destruct (m s) as [? ?|? ?]
         end;
    simpl in Q; apply steps_quiet in Q; eauto.
Qed.

End Cosmetics.

(** ** Waiting for content *)

Section Waiting.
Context {W elem response : Type} {ops : World W elem response}.

Lemma ajax_poll_returns (n : nat) (expected last : Z) (st : state W) :
  0 <= last ->
  exists b st',
    ajax_poll n expected last st = Ok b st' /\
    (b = true ->
     exists s rows,
       call [] (driver_find_elements (ByClassName row_class)) s = Ok rows st' /\
       expected <= llen rows /\ 0 < llen rows).
Proof.
  revert last st. induction n as [|n IH]; intros last st Hl; cbn [ajax_poll].
  - exists false, st. split; [reflexivity|discriminate].
  - unfold bind at 1, try_except. unfold bind at 1.
    destruct (call [] (driver_find_elements (ByClassName row_class)) st)
      as [rows s1|e s1] eqn:Hrows.
    + destruct (Z.gtb_spec (llen rows) last) as [Hgt|Hle]; cbn [andb].
      * destruct (Z.geb_spec (llen rows) expected) as [Hge|Hlt].
        -- unfold ret at 1. cbn [fst]. exists true, s1.
           split; [reflexivity|]. intros _. exists st, rows.
           repeat split; [assumption|lia|lia].
        -- unfold bind at 1.
           destruct (simulate_real_browser_behavior_returns s1) as [s2 ->].
           unfold bind at 1.
           destruct (time_sleep_quiet (Seconds 2) s2 eq_refl) as [s3 [-> _]].
           unfold ret at 1. cbn [fst snd]. apply IH. lia.
      * unfold bind at 1.
        destruct (simulate_real_browser_behavior_returns s1) as [s2 ->].
        unfold bind at 1.
        destruct (time_sleep_quiet (Seconds 2) s2 eq_refl) as [s3 [-> _]].
        unfold ret at 1. cbn [fst snd]. apply IH. lia.
    + unfold bind at 1.
      destruct (time_sleep_quiet (Seconds 2) s1 eq_refl) as [s3 [-> _]].
      unfold ret at 1. cbn [fst snd]. apply IH. lia.
Qed.

(** X12.  The settle wait always returns.  When it returns [True] its last
    act was to count the rows of the page, and there were at least
    [expected_count] of them and at least one; when the time is up at once
    it returns [False] without touching the page. *)
Theorem wait_for_ajax_content_load_verdict (expected_count timeout : Z)
  (st : state W) :
  exists b st',
    wait_for_ajax_content_load expected_count timeout st = Ok b st' /\
    (b = true ->
     exists s rows,
       call [] (driver_find_elements (ByClassName row_class)) s = Ok rows st' /\
       expected_count <= llen rows /\ 0 < llen rows) /\
    (polls timeout (world st) = O -> b = false /\ st' = st).
Proof.
  unfold wait_for_ajax_content_load, bind, observe.
  destruct (ajax_poll_returns (polls timeout (world st)) expected_count 0 st
              ltac:(lia)) as [b [st' [E T]]].
  exists b, st'. split; [exact E|]. split; [exact T|].
  intros Z0. rewrite Z0 in E. cbn in E. inversion E. auto.
Qed.

Lemma page_load_poll_returns (n : nat) (expected_elements : string)
  (st : state W) :
  exists b st',
    page_load_poll n expected_elements st = Ok b st' /\
    (b = true ->
     exists s page_source,
       call [] driver_page_source s = Ok page_source st' /\
       5000 <= len page_source /\
       forall indicator, In indicator load_indicators ->
                         contains indicator (lower page_source) = false).
Proof.
  revert st. induction n as [|n IH]; intros st; cbn [page_load_poll].
  - exists false, st. split; [reflexivity|discriminate].
  - unfold bind at 1, try_except. unfold bind at 1.
    destruct (call [] (wait_presence_all 5 (ByCssSelector expected_elements)) st)
      as [found s1|e s1].
    + unfold bind at 1.
      destruct (call [] driver_page_source s1) as [src s2|e s2] eqn:Hsrc.
      * destruct (Z.ltb_spec (len src) 5000) as [Hshort|Hlong].
        -- unfold bind at 1.
           destruct (time_sleep_quiet (Seconds 2) s2 eq_refl) as [s3 [-> _]].
           unfold ret at 1. apply IH.
        -- destruct (existsb _ load_indicators) eqn:Hind.
           ++ unfold bind at 1.
              destruct (time_sleep_quiet (Seconds 3) s2 eq_refl) as [s3 [-> _]].
              unfold ret at 1. apply IH.
           ++ unfold ret at 1. exists true, s2. split; [reflexivity|].
              intros _. exists s1, src. repeat split; [assumption|lia|].
              intros indicator Hin.
              destruct (contains indicator (lower src)) eqn:C; [|reflexivity].
              assert (X : existsb (fun i => contains i (lower src))
                                  load_indicators = true)
                by (apply existsb_exists; eauto).
              congruence.
      * unfold bind at 1.
        destruct (time_sleep_quiet (Seconds 2) s2 eq_refl) as [s3 [-> _]].
        unfold ret at 1. apply IH.
    + unfold bind at 1.
      destruct (time_sleep_quiet (Seconds 2) s1 eq_refl) as [s3 [-> _]].
      unfold ret at 1. apply IH.
Qed.

(** X13.  [wait_for_page_load_with_retry] always returns, and returns
    [True] only on a page source of at least 5000 characters that holds
    none of "blocked", "captcha" and "cloudflare" in any letter case. *)
Theorem wait_for_page_load_with_retry_verdict (expected_elements : string)
  (max_wait : Z) (st : state W) :
  exists b st',
    wait_for_page_load_with_retry expected_elements max_wait st = Ok b st' /\
    (b = true ->
     exists s page_source,
       call [] driver_page_source s = Ok page_source st' /\
       5000 <= len page_source /\
       forall indicator, In indicator load_indicators ->
                         contains indicator (lower page_source) = false).
Proof.
  unfold wait_for_page_load_with_retry, bind, observe.
  apply page_load_poll_returns.
Qed.

(** X14.  [detect_blocking] answers "not blocked" in one case only: the
    page source was read, has at least 5000 characters and none of the
    blocking indicators, and the row lookup returned at least one row.
    Everything else, a raising driver included, counts as blocked. *)
Theorem detect_blocking_not_blocked_iff (st st' : state W) :
  detect_blocking st = Ok false st' <->
  exists page_source st1 rows,
    call [] driver_page_source st = Ok page_source st1 /\
    5000 <= len page_source /\
    (forall indicator, In indicator blocking_indicators ->
                       contains indicator (lower page_source) = false) /\
    call [] (driver_find_elements (ByClassName row_class)) st1 = Ok rows st' /\
    rows <> [].
Proof.
  unfold detect_blocking, try_except, bind, ret. split.
  - destruct (call [] driver_page_source st) as [src s1|e s1]; [|discriminate].
    destruct (existsb _ blocking_indicators) eqn:Hind; [discriminate|].
    destruct (Z.ltb_spec (len src) 5000); [discriminate|].
    destruct (call [] (driver_find_elements (ByClassName row_class)) s1)
      as [rows s2|e s2] eqn:Hrows; [|discriminate].
    destruct rows as [|r rows]; cbn [nonempty negb]; [discriminate|].
    intros Q. inversion Q; subst.
    exists src, s1, (r :: rows). repeat split; try assumption; [|discriminate].
    intros indicator Hin.
    destruct (contains indicator (lower src)) eqn:C; [|reflexivity].
    assert (X : existsb (fun i => contains i (lower src))
                        blocking_indicators = true)
      by (apply existsb_exists; eauto).
    congruence.
  - intros [src [s1 [rows [Hsrc [Hlen [Hnone [Hrows Hne]]]]]]].
    rewrite Hsrc.
    replace (existsb _ blocking_indicators) with false.
    + destruct (Z.ltb_spec (len src) 5000); [lia|].
      rewrite Hrows. destruct rows; [congruence|reflexivity].
    + symmetry. apply not_true_is_false. intros Hex.
      apply existsb_exists in Hex. destruct Hex as [ind [Hin Hc]].
      rewrite (Hnone ind Hin) in Hc. discriminate.
Qed.

End Waiting.

(** ** The scraper object and the fetcher *)

Section Object.
Context {W elem response : Type} {ops : World W elem response}.

Lemma http_fetch_exact (url : string) (st : state W) :
  exists r st',
    http_fetch url st = Ok r st' /\
    self_config st' = self_config st /\ self_driver st' = self_driver st /\
    trace st' = (trace st ++ [HttpGet url (timeout (self_config st))])%list.
Proof.
  unfold http_fetch, bind, get_config, try_except, call, of_exc, ret.
  destruct (session_get url (timeout (self_config st)) (world st)) as [resp w|e w];
    [destruct (raise_for_status resp)|]; cbn; eauto 10.
Qed.

Lemma browser_fetch_exact (url : string) (st s' : state W) :
  final (browser_fetch url st) = s' ->
  self_config s' = self_config st /\
  self_driver s' = self_driver st /\
  trace s' = (trace st ++ [DriverGet url])%list.
Proof.
  unfold browser_fetch. unfold bind at 1, get_config. unfold bind at 1.
  pose proof (eo_call (self_config st) (eq (DriverGet url)) [DriverGet url]
                (driver_get url) ltac:(repeat constructor) st eq_refl) as G.
  assert (T : trace (final (call [DriverGet url] (driver_get url) st))
              = (trace st ++ [DriverGet url])%list).
  { unfold call. destruct (driver_get url (world st)); reflexivity. }
  destruct G as [C [D _]].
  destruct (call [DriverGet url] (driver_get url) st) as [[] s1|e s1];
    cbn [final] in *; [|intros <-; auto].
  match goal with |- final (?m s1) = _ -> _ =>
    assert (Q : emits_only (self_config s1) no_event m) by eo
  end.
  specialize (Q s1 eq_refl). apply steps_quiet in Q.
  destruct Q as [C2 [D2 T2]]. intros <-. repeat split; congruence.
Qed.

(** X15.  A call of [_get_page_content] makes at most one browser
    navigation, then at most one HTTP request, both for the URL asked for,
    and nothing else: with the browser in use either the navigation alone
    (and then a page source is the result) or the navigation followed by
    the request; without it the request alone. *)
Theorem get_page_content_events (url : string) (st : state W) :
  exists r st' evs,
    _get_page_content url st = Ok r st' /\
    self_config st' = self_config st /\ self_driver st' = self_driver st /\
    trace st' = (trace st ++ evs)%list /\
    (if use_selenium (self_config st) && self_driver st
     then (evs = [DriverGet url] /\ exists page_source, r = Some page_source) \/
          evs = [DriverGet url; HttpGet url (timeout (self_config st))]
     else evs = [HttpGet url (timeout (self_config st))]).
Proof.
  unfold _get_page_content, bind, browser_enabled, try_except, ret.
  destruct (use_selenium (self_config st) && self_driver st).
  - pose proof (browser_fetch_exact url st _ eq_refl) as [C [D T]].
    destruct (browser_fetch url st) as [src s1|e s1]; cbn [final] in *.
    + exists (Some src), s1, [DriverGet url]. repeat split; eauto.
    + destruct (http_fetch_exact url s1) as [r [st' [E [C2 [D2 T2]]]]].
      exists r, st', [DriverGet url; HttpGet url (timeout (self_config st))].
      split; [exact E|]. repeat split; try congruence.
      * rewrite T2, T, C, <- app_assoc. reflexivity.
      * now right.
  - destruct (http_fetch_exact url st) as [r [st' [E [C2 [D2 T2]]]]].
    exists r, st', [HttpGet url (timeout (self_config st))]. auto.
Qed.

(** X16.  Building the scraper object: only [use_selenium] of the
    configuration can change, and only to [False]; if it is still [True]
    afterwards the driver is set; the construction raises only when
    creating the output directory raises. *)
Theorem init_degrades (cfg : option config) (st : state W) :
  let requested := match cfg with Some c => c | None => default_config end in
  let st' := final (init cfg st) in
  self_config st' = with_use_selenium (use_selenium (self_config st')) requested /\
  (use_selenium (self_config st') = true ->
   use_selenium requested = true /\ self_driver st' = true) /\
  (forall e s, init cfg st = Raise e s ->
               exists w, makedirs (output_dir requested) w = Raise e (world s)).
Proof.
  cbv zeta.
  set (requested := match cfg with Some c => c | None => default_config end).
  assert (I : forall c, c = with_use_selenium (use_selenium c) c)
    by (intros c; destruct c; reflexivity).
  unfold init, _setup_driver, bind, set_config, set_driver, get_config,
    try_except, set_use_selenium, call, ret. cbn.
  fold requested.
  destruct (use_selenium requested) eqn:U; cbn.
  - destruct (chrome_start (world st)) as [[] w1|e1 w1]; cbn;
      [destruct (driver_set_window w1) as [[] w2|e2 w2]; cbn|];
      match goal with |- context [makedirs ?p ?w] =>
        destruct (makedirs p w) as [[] w3|e3 w3] eqn:Mk end; cbn;
      (split; [first [apply I|reflexivity]|]);
      (split; [intros; first [discriminate|auto]|]);
      intros e s Q; inversion Q; subst; cbn; eauto.
  - match goal with |- context [makedirs ?p ?w] =>
      destruct (makedirs p w) as [[] w3|e3 w3] eqn:Mk end; cbn;
      (split; [apply I|]);
      (split; [intros; congruence|]);
      intros e s Q; inversion Q; subst; cbn; eauto.
Qed.

(** X17.  [close] never raises, requests no page and writes no file.
    Without a driver it does nothing; with one, the driver is unset
    afterwards unless quitting it raised. *)
Theorem close_releases_driver (st : state W) :
  exists st',
    close st = Ok tt st' /\
    self_config st' = self_config st /\ trace st' = trace st /\
    (self_driver st = false -> st' = st) /\
    (self_driver st' = true ->
     self_driver st = true /\
     exists e w, driver_quit (world st) = Raise e w).
Proof.
  unfold close, bind, has_driver, try_except, call, set_driver, ret.
  destruct (self_driver st) eqn:D.
  - destruct (driver_quit (world st)) as [[] w|e w] eqn:Q; cbn;
      eexists; (split; [reflexivity|]); cbn; rewrite ?app_nil_r;
      repeat split; try discriminate; eauto.
  - exists st. repeat split; congruence.
Qed.

End Object.

(** ** What the scraping functions return *)

Section Results.
Context {W elem response : Type} {ops : World W elem response} {lib : Library}.

Lemma yields_bind {A B} (P : A -> Prop) (Q : B -> Prop) (m : M W A)
  (k : A -> M W B) :
  yields P m -> (forall a, P a -> yields Q (k a)) -> yields Q (bind m k).
Proof.
  intros Hm Hk st b st'. unfold bind.
  destruct (m st) as [a s1|e s1] eqn:E; [|discriminate].
  intros H. exact (Hk a (Hm _ _ _ E) _ _ _ H).
Qed.

Lemma yields_try_except {A} (Q : A -> Prop) (m : M W A) (h : exn -> M W A) :
  yields Q m -> (forall e, yields Q (h e)) -> yields Q (try_except m h).
Proof.
  intros Hm Hh st a st'. unfold try_except.
  destruct (m st) as [a0 s1|e s1] eqn:E.
  - intros H. inversion H; subst. exact (Hm _ _ _ E).
  - apply Hh.
Qed.

Lemma yields_ret {A} (Q : A -> Prop) (a : A) : Q a -> yields (W := W) Q (ret a).
Proof. intros H st a0 st' E. inversion E; subst. exact H. Qed.

Lemma yields_any {A} (m : M W A) : yields (fun _ => True) m.
Proof. intros st a st' _. exact I. Qed.




Lemma extract_rows_not_a_write (cfg : config) (rows : list elem) :
  emits_only cfg not_a_write (extract_rows rows).
Proof. induction rows as [|row rest IH]; cbn [extract_rows]; eo. exact IH. Qed.

Lemma get_page_content_not_a_write (cfg : config) (url : string) :
  emits_only (W := W) cfg not_a_write (_get_page_content url).
Proof.
  unfold _get_page_content, browser_fetch, http_fetch. eo;
    apply eo_call; repeat constructor.
Qed.





End Results.


Section Lists.
Context {W elem response : Type} {ops : World W elem response} {lib : Library}.








Lemma eo_weaken {A} (cfg : config) (P Q : event -> Prop) (m : M W A) :
  (forall ev, P ev -> Q ev) -> emits_only cfg P m -> emits_only cfg Q m.
Proof. intros H Hm st Hc. eapply steps_weaken; eauto. Qed.

Lemma fallback_pages_not_a_write (cfg : config) (pages : list Z)
  (all_companies : list dict) :
  emits_only cfg not_a_write (fallback_pages pages all_companies).
Proof.
  revert all_companies.
  induction pages as [|p ps IH]; intros acc; cbn [fallback_pages].
  - apply eo_ret.
  - apply eo_get_config.
    apply eo_bind; [apply get_page_content_not_a_write|]. intros content.
    destruct content as [c|]; [|apply IH].
    destruct (truthy c); [|apply IH].
    destruct (negb (nonempty _)); [apply IH|].
    apply eo_bind; [apply eo_time_sleep|]. intros _. apply IH.
Qed.

Lemma fallback_not_a_write (cfg : config) :
  emits_only cfg not_a_write _scrape_with_requests_fallback.
Proof.
  unfold _scrape_with_requests_fallback. apply eo_get_config.
  apply fallback_pages_not_a_write.
Qed.

Lemma attempt_steps {A} (P : event -> Prop) (all_companies : list dict)
  (m : M W A) (k : A -> state W -> flow * state W) (st : state W) :
  emits_only (self_config st) P m ->
  (forall a s, self_config s = self_config st -> steps P s (snd (k a s))) ->
  steps P st (snd (attempt all_companies m k st)).
Proof.
  intros Hm Hk. unfold attempt. specialize (Hm st eq_refl).
  destruct (m st) as [a s|e s]; cbn in *; [|exact Hm].
  eapply steps_trans; [exact Hm|]. apply Hk. now destruct Hm.
Qed.

Lemma switch_to_requests_steps (all_companies : list dict) (st : state W) :
  steps not_a_write st (snd (switch_to_requests all_companies st)).
Proof.
  unfold switch_to_requests.
  apply attempt_steps; [apply fallback_not_a_write|].
  intros a s _. apply steps_refl.
Qed.

Lemma list_pages_steps (pages : list Z) (all_companies : list dict)
  (st : state W) :
  steps not_a_write st (snd (list_pages pages all_companies st)).
Proof.
  revert all_companies st.
  induction pages as [|page rest IH]; intros acc st; cbn [list_pages].
  - apply steps_refl.
  - apply attempt_steps; [unfold await_rows; eo|].
    intros [src|] s1 H1.
    + destruct (len src <? 5000); [|apply IH].
      destruct (page >? 1); [apply switch_to_requests_steps|apply steps_refl].
    + apply attempt_steps; [eo|]. intros rows s2 H2.
      apply attempt_steps; [apply extract_rows_not_a_write|].
      intros found s3 H3.
      apply attempt_steps.
      { apply eo_get_config. destruct (page <? _); [|apply eo_ret].
        eapply eo_weaken; [|apply navigate_quiet]. intros ev []. }
      intros moved s4 H4.
      destruct (negb moved); [apply switch_to_requests_steps|].
      apply attempt_steps; [eo|]. intros _ s5 H5. apply IH.
Qed.

Lemma opening_steps (url : string) (st : state W) :
  steps not_a_write st
    (final ((call [DriverGet url] (driver_get url) ;;
             time_sleep (Seconds 5))%py st)).
Proof.
  match goal with |- steps _ _ (final (?m st)) =>
    assert (E : emits_only (self_config st) not_a_write m);
      [|exact (E st eq_refl)]
  end.
  apply eo_bind; [|intros _; apply eo_time_sleep].
  apply eo_call. repeat constructor.
Qed.

Lemma scrape_companies_list_steps (st : state W) :
  steps not_a_write st (final (scrape_companies_list st)).
Proof.
  assert (F : forall s, steps not_a_write s
                          (final (_scrape_with_requests_fallback s))).
  { intros s. exact (fallback_not_a_write (self_config s) s eq_refl). }
  unfold scrape_companies_list.
  destruct (use_selenium (self_config st) && self_driver st); [|apply F].
  pose proof (opening_steps (base_url (self_config st)) st) as S0.
  match goal with |- context [match ?m st with _ => _ end] =>
    destruct (m st) as [[] s0|e s0]
  end.
  - cbn in S0.
    pose proof (list_pages_steps
                  (range 1 (pages_to_scrape (self_config st) + 1)) [] s0)
      as S1.
    destruct (list_pages _ [] s0) as [[all|r|all e] s]; cbn in S1;
      pose proof (steps_trans _ _ _ _ S0 S1) as S2;
      try (destruct all; cbn; [eapply steps_trans; [exact S2|apply F]|]);
      exact S2.
  - cbn in S0. cbn. eapply steps_trans; [exact S0|apply F].
Qed.



End Lists.



Section Enrichment.
Context {W elem response : Type} {ops : World W elem response} {lib : Library}.

Lemma enriched_keeps (company detailed : dict) :
  enriched company detailed -> keeps_list_fields company detailed.
Proof.
  intros [->|[soup ->]] k Hk; [reflexivity|].
  rewrite lookup_merge by apply extract_company_profile_keys.
  now rewrite profile_lacks_list_fields.
Qed.

Lemma yields_raise {A} (Q : A -> Prop) (e : exn) : yields (W := W) Q (raise e).
Proof. intros st a st' E. discriminate E. Qed.

Lemma process_company_enriched (company : dict) (st : state W) :
  exists detailed st',
    process_company company st = Ok detailed st' /\ enriched company detailed.
Proof.
  assert (Y : yields (enriched company) (process_company company)).
  { unfold process_company.
    apply yields_try_except; [|intros e; apply yields_ret; now left].
    destruct (is_true _); [|apply yields_ret; now left].
    destruct (get_str _ _); [|apply yields_raise].
    eapply yields_bind; [apply yields_any|]. intros cfg _.
    eapply yields_bind; [apply yields_any|]. intros _ _.
    eapply yields_bind; [apply yields_any|]. intros content _.
    destruct content as [c|]; [|apply yields_ret; now left].
    destruct (truthy c); apply yields_ret; [right; eauto|now left]. }
  destruct (process_company company st) as [d s|e s] eqn:E.
  - exists d, s. split; [reflexivity|exact (Y _ _ _ E)].
  - exfalso. unfold process_company, try_except, ret in E.
    match type of E with context [match ?m st with _ => _ end] =>
      destruct (m st) end; discriminate E.
Qed.

Lemma process_chunk_enriched (companies_chunk : list dict) (st : state W) :
  exists detailed_companies st',
    _process_companies_chunk companies_chunk st = Ok detailed_companies st' /\
    Forall2 enriched companies_chunk detailed_companies.
Proof.
  revert st.
  induction companies_chunk as [|company rest IH]; intros st;
    cbn [_process_companies_chunk].
  - exists [], st. split; [reflexivity|constructor].
  - destruct (process_company_enriched company st) as [d [s1 [E1 H1]]].
    destruct (IH s1) as [ds [s2 [E2 H2]]].
    exists (d :: ds), s2. unfold bind. rewrite E1, E2.
    split; [reflexivity|now constructor].
Qed.

Lemma scrape_company_profile_yields (company_url : string) :
  yields (fun d => d = [] \/ exists soup, d = extract_company_profile soup)
         (scrape_company_profile company_url).
Proof.
  unfold scrape_company_profile.
  eapply yields_bind; [apply yields_any|]. intros enabled _.
  eapply yields_bind; [apply yields_any|]. intros content _.
  destruct content; apply yields_ret; [right; eauto|now left].
Qed.

Lemma merge_nothing (company : dict) : merge company [] = company.
Proof. reflexivity. Qed.

Lemma enrich_in_browser_enriched (companies_list : list dict) (st : state W) :
  exists detailed_companies st',
    enrich_in_browser companies_list st = Ok detailed_companies st' /\
    Forall2 enriched companies_list detailed_companies.
Proof.
  revert st.
  induction companies_list as [|company rest IH]; intros st;
    cbn [enrich_in_browser].
  - exists [], st. split; [reflexivity|constructor].
  - set (step := try_except _ _).
    assert (Y : yields (enriched company) step).
    { subst step.
      apply yields_try_except; [|intros e; apply yields_ret; now left].
      eapply yields_bind with
        (P := fun d => d = [] \/ exists soup, d = extract_company_profile soup).
      - destruct (get_str _ _) as [u|]; [|apply yields_ret; now left].
        destruct (truthy u); [apply scrape_company_profile_yields|].
        apply yields_ret; now left.
      - intros d [->|[soup ->]]; apply yields_ret; [now left|right; eauto]. }
    assert (R : exists d s1, step st = Ok d s1).
    { subst step. unfold try_except, ret.
      match goal with |- context [match ?m st with _ => _ end] =>
        destruct (m st) end; eauto. }
    destruct R as [d [s1 E1]]. pose proof (Y _ _ _ E1) as H1.
    destruct (IH s1) as [ds [s2 [E2 H2]]].
    exists (d :: ds), s2. unfold bind. rewrite E1, E2.
    split; [reflexivity|now constructor].
Qed.

Lemma Forall2_enriched_keeps (l ds : list dict) :
  Forall2 enriched l ds -> Forall2 keeps_list_fields l ds.
Proof.
  intros H. eapply Forall2_impl; [|exact H]. apply enriched_keeps.
Qed.

Lemma gather_run (chunks : list (list dict)) (order : list nat)
  (detailed_companies : list dict) (st : state W) :
  exists results st',
    gather chunks order detailed_companies st
      = Ok (detailed_companies ++ results)%list st' /\
    Forall2 enriched (flat_map (fun i => nth i chunks []) order) results.
Proof.
  revert detailed_companies st.
  induction order as [|i rest IH]; intros acc st; cbn [gather flat_map].
  - exists [], st. rewrite app_nil_r. split; [reflexivity|constructor].
  - assert (R : exists r s1,
               match nth_error chunks i with
               | Some chunk =>
                   try_except (_process_companies_chunk chunk)
                              (fun _ => ret [])
               | None => ret []
               end st = Ok r s1 /\ Forall2 enriched (nth i chunks []) r).
    { destruct (nth_error chunks i) as [chunk|] eqn:N.
      - rewrite (nth_error_nth _ _ _ N).
        destruct (process_chunk_enriched chunk st) as [r [s1 [E H]]].
        exists r, s1. unfold try_except. rewrite E. auto.
      - apply nth_error_None in N. rewrite nth_overflow by assumption.
        exists [], st. split; [reflexivity|constructor]. }
    destruct R as [r [s1 [E1 H1]]].
    destruct (IH (acc ++ r)%list s1) as [rs [s2 [E2 H2]]].
    exists (r ++ rs)%list, s2. unfold bind. rewrite E1, E2, app_assoc.
    split; [reflexivity|now apply Forall2_app].
Qed.

Lemma flat_map_nth_seq {A} (chunks : list (list A)) :
  flat_map (fun i => nth i chunks []) (seq 0 (List.length chunks))
  = List.concat chunks.
Proof.
  induction chunks as [|c cs IH]; [reflexivity|].
  cbn [List.length seq flat_map List.concat nth].
  rewrite <- seq_shift, flat_map_concat_map, map_map,
    <- flat_map_concat_map. cbn [nth]. now rewrite IH.
Qed.

Lemma company_chunks_concat (companies_list : list dict) (c : Z)
  (chunks : list (list dict)) :
  0 < c -> company_chunks companies_list c = Val chunks ->
  List.concat chunks = companies_list.
Proof.
  intros Hc. unfold company_chunks, range3, exc_bind.
  destruct (Z.eqb_spec c 0); [lia|].
  destruct (Z.gtb_spec c 0); [|lia].
  intros E. inversion E; subst.
  rewrite chunks_concat; [reflexivity|lia|lia|lia].
Qed.

Lemma process_chunk_not_a_write (cfg : config) (companies_chunk : list dict) :
  emits_only cfg not_a_write (_process_companies_chunk companies_chunk).
Proof.
  induction companies_chunk as [|company rest IH];
    cbn [_process_companies_chunk]; [apply eo_ret|].
  apply eo_bind; [|intros d; apply eo_bind; [exact IH|intros ds; apply eo_ret]].
  unfold process_company. eo. apply get_page_content_not_a_write.
Qed.

Lemma scrape_company_profile_not_a_write (cfg : config) (company_url : string) :
  emits_only (W := W) cfg not_a_write (scrape_company_profile company_url).
Proof.
  unfold scrape_company_profile. eo;
    try (apply eo_call; repeat constructor);
    try apply get_page_content_not_a_write.
Qed.

Lemma enrich_in_browser_not_a_write (cfg : config) (companies_list : list dict) :
  emits_only cfg not_a_write (enrich_in_browser companies_list).
Proof.
  induction companies_list as [|company rest IH];
    cbn [enrich_in_browser]; [apply eo_ret|].
  apply eo_bind; [|intros d; apply eo_bind; [exact IH|intros ds; apply eo_ret]].
  eo; apply scrape_company_profile_not_a_write.
Qed.

Lemma gather_not_a_write (cfg : config) (chunks : list (list dict))
  (order : list nat) (detailed_companies : list dict) :
  emits_only cfg not_a_write (gather chunks order detailed_companies).
Proof.
  revert detailed_companies.
  induction order as [|i rest IH]; intros acc; cbn [gather]; [apply eo_ret|].
  apply eo_bind; [|intros r; apply IH].
  destruct (nth_error chunks i); [|apply eo_ret].
  apply eo_try_except; [apply process_chunk_not_a_write|].
  intros e. apply eo_ret.
Qed.

Lemma scrape_all_company_profiles_not_a_write (cfg : config)
  (companies_list : list dict) :
  emits_only cfg not_a_write (scrape_all_company_profiles companies_list).
Proof.
  unfold scrape_all_company_profiles.
  destruct (negb (nonempty companies_list)); [apply eo_ret|].
  apply eo_browser_enabled. intros b.
  destruct b; [apply enrich_in_browser_not_a_write|].
  apply eo_get_config.
  apply eo_bind; [apply eo_of_exc|]. intros chunks.
  apply eo_bind; [destruct (_ <=? 0); [apply eo_raise|apply eo_ret]|].
  intros _. apply eo_bind; [apply eo_observe|]. intros order.
  apply gather_not_a_write.
Qed.

(** X21.  [_process_companies_chunk] never raises and returns one record
    for each company of the chunk, in the order of the chunk: the company's
    own record, or that record merged with the fields of a profile page.
    Either way the name, the links, the founder, the location and the
    industry read from the list page are as they were. *)
Theorem process_companies_chunk_keeps (companies_chunk : list dict)
  (st : state W) :
  exists detailed_companies st',
    _process_companies_chunk companies_chunk st = Ok detailed_companies st' /\
    Forall2 enriched companies_chunk detailed_companies /\
    Forall2 keeps_list_fields companies_chunk detailed_companies.
Proof.
  destruct (process_chunk_enriched companies_chunk st) as [ds [s [E H]]].
  exists ds, s. auto using Forall2_enriched_keeps.
Qed.

(** X22.  With a browser, [scrape_all_company_profiles] never raises and
    returns one record for each company, in the order given, each with the
    fields of the list page as they were. *)
Theorem scrape_all_company_profiles_in_browser (companies_list : list dict)
  (st : state W) :
  use_selenium (self_config st) && self_driver st = true ->
  exists detailed_companies st',
    scrape_all_company_profiles companies_list st
      = Ok detailed_companies st' /\
    Forall2 keeps_list_fields companies_list detailed_companies.
Proof.
  intros B. unfold scrape_all_company_profiles.
  destruct companies_list as [|c0 l]; cbn [nonempty negb].
  - exists [], st. split; [reflexivity|constructor].
  - unfold bind at 1, browser_enabled. rewrite B.
    destruct (enrich_in_browser_enriched (c0 :: l) st) as [ds [s [E H]]].
    exists ds, s. auto using Forall2_enriched_keeps.
Qed.

(** X23.  Without a browser, with a positive chunk size and pool size and
    a pool that completes every chunk once, [scrape_all_company_profiles]
    never raises and returns one record for each company: the results are
    those of the companies in some order, each with the fields of the list
    page as they were. *)
Theorem scrape_all_company_profiles_in_pool (companies_list : list dict)
  (st : state W) :
  use_selenium (self_config st) && self_driver st = false ->
  0 < chunk_size (self_config st) ->
  0 < max_workers (self_config st) ->
  (forall n, Permutation (completion_order n (world st)) (seq 0 n)) ->
  exists reordered detailed_companies st',
    scrape_all_company_profiles companies_list st
      = Ok detailed_companies st' /\
    Permutation reordered companies_list /\
    Forall2 keeps_list_fields reordered detailed_companies.
Proof.
  intros B Hc Hw Hp. unfold scrape_all_company_profiles.
  destruct companies_list as [|c0 l]; cbn [nonempty negb].
  - exists [], [], st. split; [reflexivity|]. split; constructor.
  - destruct (company_chunks (c0 :: l) (chunk_size (self_config st)))
      as [chunks|e] eqn:C.
    2: { exfalso. unfold company_chunks, range3, exc_bind in C.
         destruct (Z.eqb_spec (chunk_size (self_config st)) 0); [lia|].
         destruct (Z.gtb_spec (chunk_size (self_config st)) 0);
           [discriminate C|lia]. }
    unfold bind, browser_enabled, get_config, of_exc, observe, raise, ret.
    rewrite B, C.
    destruct (Z.leb_spec (max_workers (self_config st)) 0) as [Hle|Hgt];
      [lia|].
    set (order := completion_order (List.length chunks) (world st)).
    destruct (gather_run chunks order [] st) as [ds [s [E F]]].
    exists (flat_map (fun i => nth i chunks []) order), ds, s.
    split; [exact E|]. split; [|now apply Forall2_enriched_keeps].
    rewrite <- (company_chunks_concat _ _ _ Hc C), <- flat_map_nth_seq.
    apply Permutation_flat_map, Hp.
Qed.

End Enrichment.

Lemma scrape_all_company_profiles_in_browser_witness :
  exists detailed_companies st',
    scrape_all_company_profiles [[("Company Name", VStr "a")]]
      (Example.scraper default_config true Example.toy0)
      = Ok detailed_companies st' /\
    Forall2 keeps_list_fields [[("Company Name", VStr "a")]]
            detailed_companies.
Proof.
  apply (scrape_all_company_profiles_in_browser
           [[("Company Name", VStr "a")]]
           (Example.scraper default_config true Example.toy0)).
  reflexivity.
Defined.

Lemma scrape_all_company_profiles_in_pool_witness :
  exists reordered detailed_companies st',
    scrape_all_company_profiles
      [[("Company Name", VStr "a")]; [("Company Name", VStr "b")]]
      (Example.scraper Example.http_only false Example.toy0)
      = Ok detailed_companies st' /\
    Permutation reordered
      [[("Company Name", VStr "a")]; [("Company Name", VStr "b")]] /\
    Forall2 keeps_list_fields reordered detailed_companies.
Proof.
  apply (scrape_all_company_profiles_in_pool
           [[("Company Name", VStr "a")]; [("Company Name", VStr "b")]]
           (Example.scraper Example.http_only false Example.toy0)).
  - reflexivity.
  - simpl. lia.
  - simpl. lia.
  - intros n. apply Permutation_refl.
Defined.

(** ** Whole runs *)

Section Runs.
Import Main.
Context {W elem response : Type} {ops : World W elem response} {lib : Library}.

Lemma close_returns (st : state W) :
  exists st', close st = Ok tt st' /\ trace st' = trace st.
Proof.
  unfold close, bind, has_driver, try_except, call, set_driver, ret.
  destruct (self_driver st); [|eauto].
  destruct (driver_quit (world st)) as [[] w|e w]; cbn;
    eexists; (split; [reflexivity|]); cbn; now rewrite app_nil_r.
Qed.


Lemma writes_app (a b : list event) :
  writes (a ++ b) = (writes a ++ writes b)%list.
Proof.
  induction a as [|ev a IH]; [reflexivity|].
  destruct ev; cbn; now rewrite IH.
Qed.

Lemma writes_none (evs : list event) :
  Forall not_a_write evs -> writes evs = [].
Proof.
  induction 1 as [|ev evs H _ IH]; [reflexivity|].
  destruct ev; cbn in *; tauto.
Qed.

(** X24.  [run_single_page] and [run_page_range] turn a page below one and
    an invalid range down with [ValueError], and only after [close] has
    run: the state they leave is the one [close] returns on the scraper
    as it was. *)
Theorem run_rejects_after_close (st : state W) :
  (forall page_number, page_number < 1 ->
   exists st', close st = Ok tt st' /\
               run_single_page page_number st = Raise ValueError st') /\
  (forall start_page end_page,
   start_page < 1 \/ end_page < start_page ->
   exists st', close st = Ok tt st' /\
               run_page_range start_page end_page st = Raise ValueError st').
Proof.
  destruct (close_returns st) as [st' [E _]]. split.
  - intros p H. exists st'. split; [exact E|].
    unfold run_single_page, try_finally, bind at 1, scrape_specific_page.
    destruct (Z.ltb_spec p 1); [|lia]. unfold raise. now rewrite E.
  - intros s e H. exists st'. split; [exact E|].
    unfold run_page_range, try_finally, bind at 1, scrape_page_range.
    destruct (Z.ltb_spec s 1); [unfold raise; now rewrite E|].
    destruct (Z.ltb_spec e s); [|lia]. unfold raise. now rewrite E.
Qed.

(** X25.  Neither [scrape_companies_list] nor
    [scrape_all_company_profiles] writes a file or touches the
    configuration and the driver of the scraper, whether they return or
    raise. *)
Theorem scraping_writes_nothing (st : state W) :
  steps not_a_write st (final (scrape_companies_list st)) /\
  forall companies_list,
    steps not_a_write st
      (final (scrape_all_company_profiles companies_list st)).
Proof.
  split; [apply scrape_companies_list_steps|].
  intros l.
  exact (scrape_all_company_profiles_not_a_write (self_config st) l st eq_refl).
Qed.


(** X27.  The question that [run_single_page] and [run_page_range] ask
    after a scrape decides about enrichment: unless it is answered, and
    answered with y (in either case, spaces around it aside), the step
    requests no page and writes no file.  After a y the one file that can
    be written is the given one. *)
Theorem offer_profiles_writes (companies : list dict) (filename : string)
  (st : state W) :
  exists evs,
    trace (final (offer_profiles companies filename st))
      = (trace st ++ evs)%list /\
    (evs = [] \/
     (exists answer w,
        console_input (world st) = Ok answer w /\
        strip (lower answer) = "y") /\
     (writes evs = [] \/
      exists detailed_companies,
        writes evs = [(path_join (output_dir (self_config st)) filename,
                       detailed_companies)])).
Proof.
  unfold offer_profiles, bind at 1, call.
  destruct (console_input (world st)) as [answer w|e w] eqn:I;
    cbv beta iota zeta.
  2: { exists []. split; [reflexivity|now left]. }
  destruct (String.eqb_spec (strip (lower answer)) "y") as [Y|N].
  2: { exists []. split; [reflexivity|now left]. }
  match goal with
  | |- context [bind (scrape_all_company_profiles companies) _ ?s] =>
      set (s2 := s)
  end.
  pose proof (scrape_all_company_profiles_not_a_write
                (self_config s2) companies s2 eq_refl) as S2.
  unfold bind at 1.
  destruct (scrape_all_company_profiles companies s2) as [d s3|e s3];
    cbn [final] in S2; destruct S2 as [C2 [_ [e3 [T3 F3]]]].
  - unfold save_to_json, bind, get_config, call. rewrite C2.
    exists (e3 ++ [WriteJson (path_join (output_dir (self_config st))
                                        filename) d])%list.
    split.
    + destruct (write_json _ d (world s3)); cbn; rewrite T3; cbn;
        now rewrite app_nil_r, <- app_assoc.
    + right. split; [eauto|]. right. exists d.
      rewrite writes_app, (writes_none _ F3). reflexivity.
  - exists e3. split.
    + cbn. rewrite T3. cbn. now rewrite app_nil_r.
    + right. split; [eauto|]. left. now apply writes_none.
Qed.



Lemma last_print_logged (st : state W) (evs : list event) (text : string) :
  last_print (logged st (evs ++ [Print text])) text.
Proof.
  exists (trace st ++ evs)%list. unfold logged. cbn. now rewrite app_assoc.
Qed.

Lemma print_last (text : string) (st : state W) :
  exists st', print text st = Ok tt st' /\ last_print st' text.
Proof.
  exists (logged st [Print text]). split; [apply print_run|].
  exact (last_print_logged st [] text).
Qed.

Lemma usage_error_last (message : string) (st : state W) :
  exists st', usage_error message st = Ok (Some 1) st' /\
              last_print st' usage_last.
Proof.
  eexists. split; [apply usage_error_run|].
  exact (last_print_logged st
           (Print (nl ++ message) :: map Print (removelast usage_text))
           usage_last).
Qed.

Lemma usage_error_post (message : string) (st : state W) :
  branch_post (usage_error message st).
Proof.
  destruct (usage_error_last message st) as [st' [E L]]. rewrite E. cbn. auto.
Qed.

Lemma unit_then_none_post (m : M W unit) (st : state W) :
  branch_post ((m ;; ret None)%py st).
Proof. unfold bind, ret. destruct (m st); exact I. Qed.

Lemma try_except_only_post (cls : exn) (m h : M W (option Z))
  (st : state W) :
  branch_post (m st) -> (forall s, branch_post (h s)) ->
  branch_post (try_except_only cls m h st).
Proof.
  intros Hm Hh. unfold try_except_only.
  destruct (m st) as [r s|e s]; [exact Hm|].
  destruct (exn_eqb e cls); [apply Hh|exact I].
Qed.

Lemma single_page_mode_post (arg : string) (st : state W) :
  branch_post (single_page_mode arg st).
Proof.
  unfold single_page_mode.
  apply try_except_only_post; [|intros s; apply usage_error_post].
  unfold bind at 1, of_exc.
  destruct (int_of_str arg) as [n|e]; [|exact I].
  destruct (n <? 1); [apply usage_error_post|apply unit_then_none_post].
Qed.

Lemma page_range_mode_post (arg1 arg2 : string) (st : state W) :
  branch_post (page_range_mode arg1 arg2 st).
Proof.
  unfold page_range_mode.
  apply try_except_only_post; [|intros s; apply usage_error_post].
  unfold bind at 1, of_exc.
  destruct (int_of_str arg1) as [s|e]; [|exact I].
  unfold bind at 1. destruct (int_of_str arg2) as [n|e]; [|exact I].
  destruct (s <? 1); [apply usage_error_post|].
  destruct (n <? s); [apply usage_error_post|apply unit_then_none_post].
Qed.

Lemma status_texts (e : exn) :
  usage_last <> check_output /\
  (nl ++ "Error: " ++ exn_str e)%string <> check_output.
Proof. split; intros H; cbv in H; congruence. Qed.

(** X29.  [main] lets no exception escape and ends with a print of its
    own.  Its exit status is 0 or 1, and it is 0 exactly when that last
    print is the pointer to the output directory; with status 1 it is the
    end of the usage text or the message of the exception caught. *)
Theorem main_exit_status (argv : list string) (st : state W) :
  exists status st' text,
    main argv st = Ok status st' /\
    last_print st' text /\
    (status = 0 \/ status = 1) /\
    (status = 0 <-> text = check_output) /\
    (status = 1 ->
     text = usage_last \/
     exists e, text = (nl ++ "Error: " ++ exn_str e)%string).
Proof.
  assert (Caught : forall e (s : state W), exists st' text,
            (print (nl ++ "Error: " ++ exn_str e) ;; ret 1)%py s = Ok 1 st' /\
            last_print st' text /\ (1 = 0 \/ 1 = 1) /\
            (1 = 0 <-> text = check_output) /\
            (1 = 1 -> text = usage_last \/
               exists e, text = (nl ++ "Error: " ++ exn_str e)%string)).
  { intros e s.
    destruct (print_last (nl ++ "Error: " ++ exn_str e) s) as [s' [E L]].
    exists s', (nl ++ "Error: " ++ exn_str e)%string.
    unfold bind, ret. rewrite E. split; [reflexivity|].
    split; [exact L|]. split; [now right|]. split; [|eauto].
    split; [discriminate|]. intros H. now apply (status_texts e) in H. }
  assert (Rejected : forall (s : state W), last_print s usage_last ->
            exists st' text,
              Ok (A := Z) 1 s = Ok 1 st' /\
              last_print st' text /\ (1 = 0 \/ 1 = 1) /\
              (1 = 0 <-> text = check_output) /\
              (1 = 1 -> text = usage_last \/
                 exists e, text = (nl ++ "Error: " ++ exn_str e)%string)).
  { intros s L. exists s, usage_last. split; [reflexivity|].
    split; [exact L|]. split; [now right|]. split; [|auto].
    split; [discriminate|]. intros H.
    now apply (status_texts ValueError) in H. }
  assert (Through : forall (s : state W), exists st' text,
            (print check_output ;; ret 0)%py s = Ok 0 st' /\
            last_print st' text /\ (0 = 0 \/ 0 = 1) /\
            (0 = 0 <-> text = check_output) /\
            (0 = 1 -> text = usage_last \/
               exists e, text = (nl ++ "Error: " ++ exn_str e)%string)).
  { intros s. destruct (print_last check_output s) as [s' [E L]].
    exists s', check_output. unfold bind, ret. rewrite E.
    split; [reflexivity|]. split; [exact L|]. split; [now left|].
    split; [tauto|discriminate]. }
  assert (Branch : forall (b : M W (option Z)) (s : state W),
            branch_post (b s) ->
            exists status st' text,
              try_except
                (returned <- b ;;
                 match returned with
                 | Some status => ret status
                 | None => print check_output ;; ret 0
                 end)%py
                (fun e => print (nl ++ "Error: " ++ exn_str e) ;; ret 1)%py s
              = Ok status st' /\
              last_print st' text /\ (status = 0 \/ status = 1) /\
              (status = 0 <-> text = check_output) /\
              (status = 1 -> text = usage_last \/
                 exists e, text = (nl ++ "Error: " ++ exn_str e)%string)).
  { intros b s Hb. unfold try_except, bind at 1.
    destruct (b s) as [[status|] s1|e s1].
    - destruct Hb as [-> L]. exists 1. unfold ret. now apply Rejected.
    - destruct (Through s1) as [s2 [text [E R]]]. rewrite E.
      exists 0, s2, text. auto.
    - exists 1. apply Caught. }
  unfold main.
  change (check_output) with (nl ++ "Check the 'output' directory for results.")%string in Branch.
  unfold try_except at 1, bind at 1.
  destruct (init None st) as [[] s0|e s0]; [|exists 1; apply Caught].
  specialize (Branch
    match argv with
    | [_] =>
        (print (nl ++ "No page numbers provided. Using default: pages 1-5") ;;
         run_page_range 1 5 ;; ret None)%py
    | [_; arg] => single_page_mode arg
    | [_; arg1; arg2] => page_range_mode arg1 arg2
    | _ => usage_error "Error: Too many arguments"
    end s0).
  unfold try_except in Branch. apply Branch.
  destruct argv as [|a0 [|a1 [|a2 [|a3 rest]]]].
  - apply usage_error_post.
  - unfold bind at 1. rewrite print_run.
    apply (unit_then_none_post (run_page_range 1 5)).
  - apply single_page_mode_post.
  - apply page_range_mode_post.
  - apply usage_error_post.
Qed.

End Runs.


Lemma run_rejects_after_close_witness :
  exists st',
    close (Example.scraper default_config true Example.toy0) = Ok tt st' /\
    run_page_range 4 2 (Example.scraper default_config true Example.toy0)
      = Raise ValueError st'.
Proof.
  apply (proj2 (run_rejects_after_close
                  (Example.scraper default_config true Example.toy0)) 4 2).
  right. lia.
Defined.
